(** * scanservice: policy gating, aggregation and scheduling of scan results

    A shallow embedding of [scanservice/handling.go].  Go values are
    modelled as follows.

    - [string] is a byte string, [int] is [Z] (only compared, never
      computed with, so no wrap-around appears).
    - [map[string]string] is a nil-able [gmap string string]
      ([None] is the nil map); [len] is the number of keys.
    - A slice is a [list]; the code only ever takes [len] of a slice, so the
      nil slice and the empty slice are both [[]].
    - [*settings.Settings] is an address into a heap of settings records,
      because line 132 writes through that pointer.
    - Effects (logging, calls of the aggregation store, [go plg.Send],
      [go func(nm)]) are collected as a chronological list of events by a
      small state-and-output monad. *)

From stdpp Require Import gmap strings list fin_maps.
From Stdlib Require Import ZArith Ascii.

Local Open Scope string_scope.
Local Open Scope list_scope.
Local Open Scope Z_scope.

(** ** Go's [strings] package, as far as the file uses it *)

Module strings.

(** ASCII lower-casing of one byte; bytes outside [A-Z] are kept. *)
Definition lowerByte (c : ascii) : ascii :=
  let n := nat_of_ascii c in
  if (Nat.leb 65 n && Nat.leb n 90)%bool then ascii_of_nat (n + 32) else c.

(** Byte-wise lower-casing: what [strings.ToLower] does to a string of
    ASCII bytes. *)
Fixpoint lowerASCII (s : string) : string :=
  match s with
  | EmptyString => EmptyString
  | String c s' => String (lowerByte c) (lowerASCII s')
  end.

(** Every byte is below [utf8.RuneSelf]. *)
Fixpoint isASCII (s : string) : bool :=
  match s with
  | EmptyString => true
  | String c s' => (Nat.ltb (nat_of_ascii c) 128 && isASCII s')%bool
  end.

(** [strings.ToLower] of Go's standard library.  It folds the letters of
    every script and rewrites invalid UTF-8, which is not modelled; what is
    known of it is its ASCII path: a string of ASCII bytes is lower-cased
    byte by byte. *)
Class Lowering := {
  ToLower : string -> string;
  ToLower_ascii : forall s, isASCII s = true -> ToLower s = lowerASCII s
}.

Fixpoint Join (elems : list string) (sep : string) : string :=
  match elems with
  | [] => ""
  | [e] => e
  | e :: rest => e +:+ sep +:+ Join rest sep
  end.

Fixpoint hasPrefix (s p : string) : bool :=
  match p, s with
  | EmptyString, _ => true
  | String _ _, EmptyString => false
  | String a p', String b s' => if decide (a = b) then hasPrefix s' p' else false
  end.

(** [replaceFrom old new skip s]: left-to-right, non-overlapping
    replacement; [skip] bytes of an occurrence already replaced are
    dropped. *)
Fixpoint replaceFrom (old new : string) (skip : nat) (s : string) : string :=
  match s with
  | EmptyString => EmptyString
  | String c s' =>
      match skip with
      | S k => replaceFrom old new k s'
      | O =>
          if hasPrefix s old
          then new +:+ replaceFrom old new (String.length old - 1) s'
          else String c (replaceFrom old new 0 s')
      end
  end.

(** [strings.ReplaceAll] for a non-empty [old] (the file's only call has
    [old = "/"]). *)
Definition ReplaceAll (s old new : string) : string := replaceFrom old new 0 s.

End strings.

(** ** Data model *)

(** [len(s) > 0] on a string. *)
Definition nonEmptyStr (s : string) : bool := negb (String.eqb s "").

(** [len(l) > 0] on a slice. *)
Definition nonEmpty {A} (l : list A) : bool :=
  match l with [] => false | _ :: _ => true end.

Record Vulnerability := { FixVersion : string }.

Record Resource := { Vulnerabilities : list Vulnerability }.

(** [data.ScanImageInfo], the fields the file reads. *)
Record ScanImageInfo := {
  Image : string;
  Registry : string;
  Negligible : Z;
  Low : Z;
  Medium : Z;
  High : Z;
  Critical : Z;
  Disallowed : bool;
  Resources : list Resource;
  ApplicationScopeOwners : list string
}.

(** [settings.Settings], the fields the file reads or writes. *)
Record Settings := {
  PluginName : string;
  AquaServer : string;
  PolicyShowAll : bool;
  PolicyMinVulnerability : string;
  IgnoreRegistry : list string;
  IgnoreImageName : list string;
  PolicyImageName : list string;
  PolicyRegistry : list string;
  PolicyNonCompliant : bool;
  PolicyOnlyFixAvailable : bool;
  PolicyOPA : list string;
  AggregateIssuesNumber : Z;
  AggregateTimeoutSeconds : Z;
  IsScheduleRun : bool
}.

(** [s.IsScheduleRun = b]. *)
Definition setIsScheduleRun (b : bool) (s : Settings) : Settings :=
  {| PluginName := PluginName s; AquaServer := AquaServer s;
     PolicyShowAll := PolicyShowAll s;
     PolicyMinVulnerability := PolicyMinVulnerability s;
     IgnoreRegistry := IgnoreRegistry s; IgnoreImageName := IgnoreImageName s;
     PolicyImageName := PolicyImageName s; PolicyRegistry := PolicyRegistry s;
     PolicyNonCompliant := PolicyNonCompliant s;
     PolicyOnlyFixAvailable := PolicyOnlyFixAvailable s;
     PolicyOPA := PolicyOPA s;
     AggregateIssuesNumber := AggregateIssuesNumber s;
     AggregateTimeoutSeconds := AggregateTimeoutSeconds s;
     IsScheduleRun := b |}.

(** A non-nil [map[string]string]. *)
Abbreviation Fields := (gmap string string).

(** A nil-able [map[string]string]. *)
Abbreviation Content := (option (gmap string string)).

(** [len(m)] on a nil-able map. *)
Definition lenMap (m : Content) : nat :=
  match m with None => O | Some f => size f end.

(** Addresses of [settings.Settings] structs. *)
Abbreviation ptr := nat (only parsing).

(** A non-nil [plugins.Plugin]: what [GetSettings] and [GetLayoutProvider]
    return.  [plgSettings = None] is a plugin whose [GetSettings] is nil. *)
Record Plugin {LayoutProvider : Type} := {
  plgSettings : option ptr;
  plgLayout : LayoutProvider
}.
Arguments Plugin : clear implicits.

(** [type ScanService struct]. *)
Record ScanService := {
  scanInfo : option ScanImageInfo;
  prevScan : option ScanImageInfo;
  isNew : bool
}.

(** The zero value [new(ScanService)]. *)
Definition newScanService : ScanService :=
  {| scanInfo := None; prevScan := None; isNew := false |}.

(** A Go [error] value; [option Err] is the nil-able [error]. *)
Inductive Err := MkErr (msg : string).

(** The [log.Print*] calls of the file, one constructor per call site. *)
Inductive LogMsg :=
| LogInitError                         (* line 23 *)
| LogHandling                          (* line 26 *)
| LogOldScan                           (* line 41 *)
| LogLowLevel (name : string)          (* line 46 *)
| LogRegistryIgnored (name : string)   (* line 52 *)
| LogImageIgnored (name : string)      (* line 57 *)
| LogImageMissed (name : string)       (* line 62 *)
| LogRegistryMissed (name : string)    (* line 67 *)
| LogNotDisallowed (name : string)     (* line 72 *)
| LogNoFixVersion (name : string)      (* line 77 *)
| LogUsesOPA (pluginName : string)     (* line 82 *)
| LogRegoError (pluginName : string)   (* line 84 *)
| LogRegoMismatch (pluginName : string)(* line 87 *)
| LogSchedulerActive (nm : string)     (* line 122 *)
| LogAggregateError (e : Err)          (* line 149 *)
| LogQueued (pluginName : string).     (* line 153 *)

(** What the core does to the outside world, in the order it does it. *)
Inductive Event {LayoutProvider : Type} :=
| EvLog (m : LogMsg)
| EvParse (source : string)
    (* a call of parseImageInfo *)
| EvAggregateScans (pluginName : string) (currentContent : Content)
                   (counts : Z) (ignoreLength : bool)
    (* a call of dbservice.AggregateScans with these arguments *)
| EvSend (plg : Plugin LayoutProvider) (cnt : Content)
    (* go plg.Send(cnt) *)
| EvGoScheduler (nm : string) (plg : Plugin LayoutProvider).
    (* go func(nm string) { ... }(name), lines 121-131 *)
Arguments Event : clear implicits.

(** The collaborators the file calls but does not define. *)
Class Collaborators := {
  (** Go's [strings.ToLower] *)
  lowering :: strings.Lowering;
  LayoutProvider : Type;
  (** the state behind package [dbservice] *)
  DB : Type;
  parseImageInfo : string -> option ScanImageInfo * option Err;
  HandleCurrentInfo :
    option ScanImageInfo -> DB -> (string * bool * option Err) * DB;
  AggregateScans :
    string -> Content -> Z -> bool -> DB -> (list Content * option Err) * DB;
  compliesPolicies : list string -> string -> bool;
  isRegoCorrect : list string -> string -> bool * option Err;
  GenTicketDescription :
    LayoutProvider -> ScanImageInfo -> option ScanImageInfo -> string -> string;
  buildAggregatedContent : list Content -> LayoutProvider -> Content;
  (** [settings.GetDefaultSettings()]: a struct of its own, which no plugin
      points to. *)
  GetDefaultSettings : Settings
}.

(** Modelled from the spec: the [SeverityIndexes] table, which is declared
    outside this file.  The spec fixes the rank order
    Negligible < Low < Medium < High < Critical; the keys are the lower-case
    level names, and a Go map yields 0 for a key it does not hold. *)
Definition SeverityIndexes (level : string) : Z :=
  if String.eqb level "negligible" then 0
  else if String.eqb level "low" then 1
  else if String.eqb level "medium" then 2
  else if String.eqb level "high" then 3
  else if String.eqb level "critical" then 4
  else 0.

(** Modelled from the spec: [buildMapContent], which is declared outside this
    file.  The spec's NotificationContent maps the named fields title,
    description and url to the three strings the builder is given. *)
Definition buildMapContent (title description url : string) : Fields :=
  <["url" := url]> (<["description" := description]> (<["title" := title]> ∅)).

(** ** The state-and-output monad *)

(** The mutable state a call works on: the [dbservice] state and the heap of
    [settings.Settings] structs the plugins point to. *)
Record State `{Collaborators} := {
  db : DB;
  heap : gmap nat Settings
}.

Section Handling.
Context `{C : Collaborators}.

Abbreviation plugin_t := (Plugin LayoutProvider).
Abbreviation event_t := (Event LayoutProvider).

(** A computation reads and updates the state and appends events. *)
Definition M (A : Type) : Type := State -> A * State * list event_t.

Definition ret {A} (a : A) : M A := fun s => (a, s, []).

Definition bind {A B} (m : M A) (f : A -> M B) : M B :=
  fun s =>
    let '(a, s1, t1) := m s in
    let '(b, s2, t2) := f a s1 in
    (b, s2, t1 ++ t2).

Definition emit (e : event_t) : M unit := fun s => (tt, s, [e]).

Definition logPrint (m : LogMsg) : M unit := emit (EvLog m).

(** The result, the final state and the events of a computation. *)
Definition result {A} (x : A * State * list event_t) : A := fst (fst x).
Definition final {A} (x : A * State * list event_t) : State := snd (fst x).
Definition events {A} (x : A * State * list event_t) : list event_t := snd x.

#[global] Instance M_ret : MRet M := @ret.
#[global] Instance M_bind : MBind M := fun A B f m => bind m f.

(** What [plg.GetSettings()] yields in state [s]: the struct the plugin
    points to, with its address; nil when the plugin has no settings. *)
Definition lookupSettings (s : State) (plg : plugin_t)
    : option (nat * Settings) :=
  match plgSettings plg with
  | Some p => match heap s !! p with
              | Some st => Some (p, st)
              | None => None
              end
  | None => None
  end.

(** [plugin.GetSettings()]. *)
Definition GetSettings (plg : plugin_t) : M (option (nat * Settings)) :=
  fun s => (lookupSettings s plg, s, []).

(** Lines 36-39: [currentSettings], and the address it points to when it
    is the plugin's own struct. *)
Definition currentSettingsOf (gs : option (nat * Settings))
    : option nat * Settings :=
  match gs with
  | Some (p, st) => (Some p, st)
  | None => (None, GetDefaultSettings)
  end.

(** Lines 93-96: [server]. *)
Definition serverOf (gs : option (nat * Settings)) : string :=
  match gs with
  | Some (_, st) => AquaServer st
  | None => ""
  end.

(** [currentSettings.IsScheduleRun = true] (line 132).  [currentSettings]
    is either the plugin's struct at address [p] or the default struct. *)
Definition markScheduleRun (target : option nat) : M unit :=
  fun s =>
    match target with
    | Some p => (tt, {| db := db s;
                        heap := alter (setIsScheduleRun true) p (heap s) |}, [])
    | None => (tt, s, [])
    end.

(** [func send], lines 142-144. *)
Definition send (plg : plugin_t) (cnt : Content) : M unit :=
  emit (EvSend plg cnt).

(** The call [dbservice.AggregateScans(...)] of line 147. *)
Definition callAggregateScans (pluginName : string) (currentContent : Content)
    (counts : Z) (ignoreLength : bool) : M (list Content * option Err) :=
  fun s =>
    let '(r, db') := AggregateScans pluginName currentContent counts
                                    ignoreLength (db s) in
    (r, {| db := db'; heap := heap s |},
     [EvAggregateScans pluginName currentContent counts ignoreLength]).

(** [func AggregateScanAndGetQueue], lines 146-157. *)
Definition AggregateScanAndGetQueue (pluginName : string)
    (currentContent : Content) (counts : Z) (ignoreLength : bool)
    : M (list Content) :=
  r ← callAggregateScans pluginName currentContent counts ignoreLength;
  let '(aggregatedScans, err) := r in
  match err with
  | Some e =>
      logPrint (LogAggregateError e);;
      ret aggregatedScans
  | None =>
      if (negb (lenMap currentContent =? 0)%nat
          && (length aggregatedScans =? 0)%nat)%bool
      then logPrint (LogQueued pluginName);; ret []
      else ret aggregatedScans
  end.

(** [func (scan *ScanService) checkFixVersions], lines 159-168, on the
    dereferenced [scan.scanInfo]. *)
Definition checkFixVersions (info : ScanImageInfo) : bool :=
  existsb (fun r =>
             existsb (fun v => nonEmptyStr (FixVersion v)) (Vulnerabilities r))
          (Resources info).

(** [func (scan *ScanService) checkVulnerabilitiesLevel], lines 170-178:
    the loop runs [i] from the level's index to [len(vulns)]. *)
Definition checkVulnerabilitiesLevel (info : ScanImageInfo) (minLevel : string)
    : bool :=
  let vulns := [Negligible info; Low info; Medium info; High info;
                Critical info] in
  existsb (fun v => 0 <? v)
          (drop (Z.to_nat (SeverityIndexes (strings.ToLower minLevel))) vulns).

(** [func (scan *ScanService) getContent], lines 180-186. *)
Definition getContent (scan : ScanService) (info : ScanImageInfo)
    (provider : LayoutProvider) (server : string) : Fields :=
  let url := Registry info +:+ "/"
             +:+ strings.ReplaceAll (Image info) "/" "%2F" in
  buildMapContent
    (Image info +:+ " vulnerability scan report")
    (GenTicketDescription provider info (prevScan scan) (server +:+ url))
    url.

(** The call [dbservice.HandleCurrentInfo(scan.scanInfo)] of line 194. *)
Definition callHandleCurrentInfo (si : option ScanImageInfo)
    : M (string * bool * option Err) :=
  fun s =>
    let '(r, db') := HandleCurrentInfo si (db s) in
    (r, {| db := db'; heap := heap s |}, []).

(** A call of [parseImageInfo], recorded in the events. *)
Definition callParseImageInfo (source : string)
    : M (option ScanImageInfo * option Err) :=
  emit (EvParse source);; ret (parseImageInfo source).

(** [func (scan *ScanService) init], lines 188-207.  The receiver is
    passed in and the updated receiver is returned with the error. *)
Definition init (scan : ScanService) (data : string)
    : M (ScanService * option Err) :=
  r ← callParseImageInfo data;
  let '(si, err) := r in
  let scan1 := {| scanInfo := si; prevScan := prevScan scan;
                  isNew := isNew scan |} in
  match err with
  | Some e => ret (scan1, Some e)
  | None =>
      r ← callHandleCurrentInfo si;
      let '(prevScanSource, isNew', err) := r in
      let scan2 := {| scanInfo := si; prevScan := prevScan scan;
                      isNew := isNew' |} in
      match err with
      | Some e => ret (scan2, Some e)
      | None =>
          if negb isNew' then ret (scan2, None)
          else if nonEmptyStr prevScanSource then
            r ← callParseImageInfo prevScanSource;
            let '(ps, err) := r in
            ret ({| scanInfo := si; prevScan := ps; isNew := isNew' |}, err)
          else ret (scan2, None)
      end
  end.

(** The eligibility checks of lines 40-91 for one subscriber, in the
    order of the source.  The result is the log lines written and whether
    the subscriber passes; every [continue] of the source is a [false]. *)
Definition policyGate (scan : ScanService) (info : ScanImageInfo)
    (currentSettings : Settings) (name input : string)
    : list LogMsg * bool :=
  if negb (isNew scan) && negb (PolicyShowAll currentSettings)
  then ([LogOldScan], false)
  else if nonEmptyStr (PolicyMinVulnerability currentSettings)
          && negb (checkVulnerabilitiesLevel
                     info (PolicyMinVulnerability currentSettings))
  then ([LogLowLevel name], false)
  else if nonEmpty (IgnoreRegistry currentSettings)
          && compliesPolicies (IgnoreRegistry currentSettings) (Registry info)
  then ([LogRegistryIgnored name], false)
  else if nonEmpty (IgnoreImageName currentSettings)
          && compliesPolicies (IgnoreImageName currentSettings) (Image info)
  then ([LogImageIgnored name], false)
  else if nonEmpty (PolicyImageName currentSettings)
          && negb (compliesPolicies (PolicyImageName currentSettings)
                                    (Image info))
  then ([LogImageMissed name], false)
  else if nonEmpty (PolicyRegistry currentSettings)
          && negb (compliesPolicies (PolicyRegistry currentSettings)
                                    (Registry info))
  then ([LogRegistryMissed name], false)
  else if PolicyNonCompliant currentSettings && negb (Disallowed info)
  then ([LogNotDisallowed name], false)
  else if PolicyOnlyFixAvailable currentSettings
          && negb (checkFixVersions info)
  then ([LogNoFixVersion name], false)
  else if nonEmpty (PolicyOPA currentSettings) then
    let pn := PluginName currentSettings in
    match isRegoCorrect (PolicyOPA currentSettings) input with
    | (_, Some _) => ([LogUsesOPA pn; LogRegoError pn], false)
    | (false, None) => ([LogUsesOPA pn; LogRegoMismatch pn], false)
    | (true, None) => ([LogUsesOPA pn], true)
    end
  else ([], true).

Fixpoint logAll (ms : list LogMsg) : M unit :=
  match ms with
  | [] => ret tt
  | m :: rest => logPrint m;; logAll rest
  end.

(** Lines 27-30: the owners string of a scan. *)
Definition ownersOf (info : ScanImageInfo) : string :=
  if nonEmpty (ApplicationScopeOwners info)
  then strings.Join (ApplicationScopeOwners info) ";"
  else "".

(** Lines 97-101: the content of a passing (scan, subscriber) pair. *)
Definition buildContent (scan : ScanService) (info : ScanImageInfo)
    (plg : plugin_t) (server input owners : string) : Fields :=
  let content := <["src" := input]> (getContent scan info (plgLayout plg) server) in
  if negb (String.eqb owners "") then <["owners" := owners]> content
  else content.

(** Lines 103-138: count-based aggregation, time-based aggregation, the
    start of the scheduler, and the synchronous dispatch.  [target] is the
    address [currentSettings] points to, if it is the plugin's struct. *)
Definition aggregateAndSend (name : string) (plg : plugin_t)
    (currentSettings : Settings) (target : option nat) (content0 : Fields)
    : M unit :=
  r ← (if 0 <? AggregateIssuesNumber currentSettings then
         aggregated ← AggregateScanAndGetQueue
                        name (Some content0)
                        (AggregateIssuesNumber currentSettings) false;
         ret (if nonEmpty aggregated
              then buildAggregatedContent aggregated (plgLayout plg)
              else None, true)
       else ret (Some content0, false));
  let '(content, wasHandled) := r in
  content ← (if 0 <? AggregateTimeoutSeconds currentSettings then
               content ← (if negb wasHandled then
                            AggregateScanAndGetQueue name content 0 true;;
                            ret None
                          else ret content);
               (if negb (IsScheduleRun currentSettings) then
                  emit (EvGoScheduler name plg);;
                  markScheduleRun target
                else ret tt);;
               ret content
             else ret content);
  if (0 <? lenMap content)%nat then send plg content else ret tt.

(** The body of the loop of lines 32-139 for one map entry; a nil plugin
    is [None]. *)
Definition handlePlugin (scan : ScanService) (info : ScanImageInfo)
    (input owners name : string) (plugin : option plugin_t) : M unit :=
  match plugin with
  | None => ret tt
  | Some plg =>
      gs ← GetSettings plg;
      let '(target, currentSettings) := currentSettingsOf gs in
      let '(logs, pass) := policyGate scan info currentSettings name input in
      logAll logs;;
      if pass then
        gs' ← GetSettings plg;
        aggregateAndSend name plg currentSettings target
          (buildContent scan info plg (serverOf gs') input owners)
      else ret tt
  end.

(** [for name, plugin := range plugins]: the entries of the map in the
    order the iteration visits them. *)
Fixpoint rangePlugins (scan : ScanService) (info : ScanImageInfo)
    (input owners : string) (plugins : list (string * option plugin_t))
    : M unit :=
  match plugins with
  | [] => ret tt
  | (name, plugin) :: rest =>
      handlePlugin scan info input owners name plugin;;
      rangePlugins scan info input owners rest
  end.

(** How a call ends: it returns, or it dereferences a nil pointer. *)
Inductive Outcome := Returned | Panicked.

(** [func (scan *ScanService) ResultHandling], lines 21-140. *)
Definition ResultHandling (scan : ScanService) (input : string)
    (plugins : list (string * option plugin_t)) : M (ScanService * Outcome) :=
  r ← init scan input;
  let '(scan', err) := r in
  match err with
  | Some _ => logPrint LogInitError;; ret (scan', Returned)
  | None =>
      match scanInfo scan' with
      | None => ret (scan', Panicked)
      | Some info =>
          logPrint LogHandling;;
          rangePlugins scan' info input (ownersOf info) plugins;;
          ret (scan', Returned)
      end
  end.

(** Lines 126-129: what the scheduler does each time it wakes up. *)
Definition schedulerFlush (nm : string) (plg : plugin_t) : M unit :=
  queue ← AggregateScanAndGetQueue nm None 0 false;
  if nonEmpty queue
  then send plg (buildAggregatedContent queue (plgLayout plg))
  else ret tt.

(** Lines 124-130, [rounds] iterations of the endless loop.  Line 125
    reads [plg.GetSettings().AggregateTimeoutSeconds] to sleep. *)
Fixpoint schedulerLoop (rounds : nat) (nm : string) (plg : plugin_t)
    : M Outcome :=
  match rounds with
  | O => ret Returned
  | S n =>
      gs ← GetSettings plg;
      match gs with
      | None => ret Panicked
      | Some _ => schedulerFlush nm plg;; schedulerLoop n nm plg
      end
  end.

(** Lines 121-131: the goroutine, cut off after [rounds] iterations. *)
Definition scheduler (rounds : nat) (nm : string) (plg : plugin_t)
    : M Outcome :=
  gs ← GetSettings plg;
  match gs with
  | None => ret Panicked
  | Some _ => logPrint (LogSchedulerActive nm);; schedulerLoop rounds nm plg
  end.

End Handling.

(** ** The scheduler-start guard under interleaving

    Lines 119-133 read [IsScheduleRun], start the goroutine and write
    [IsScheduleRun] as three separate actions.  [ResultHandling] runs in
    several goroutines at once, so the actions of two calls interleave. *)

Module SchedulerGuard.

(** Where one call stands within lines 119-133. *)
Inductive pc :=
| AtCheck   (* before the read of line 119 *)
| AtGo      (* the flag was read as false; before [go func] of line 121 *)
| AtSet     (* before the write of line 132 *)
| Past.     (* after line 133 *)

#[global] Instance pc_eq_dec : EqDecision pc.
Proof. solve_decision. Defined.

(** What the calls share for one subscriber: the flag of its settings
    struct and the number of scheduler goroutines started so far. *)
Record shared := { flag : bool; started : nat }.

(** One action of one call. *)
Definition step (p : pc) (sh : shared) : pc * shared :=
  match p with
  | AtCheck => (if flag sh then Past else AtGo, sh)
  | AtGo => (AtSet, {| flag := flag sh; started := S (started sh) |})
  | AtSet => (Past, {| flag := true; started := started sh |})
  | Past => (Past, sh)
  end.

(** Call number [i] takes its next action. *)
Definition stepThread (i : nat) (c : list pc * shared) : list pc * shared :=
  match fst c !! i with
  | Some p => let '(p', sh') := step p (snd c) in (<[i := p']> (fst c), sh')
  | None => c
  end.

(** The calls act in the order the schedule names them. *)
Fixpoint run (schedule : list nat) (c : list pc * shared)
    : list pc * shared :=
  match schedule with
  | [] => c
  | i :: rest => run rest (stepThread i c)
  end.

(** One call that runs lines 119-133 without interruption. *)
Definition runCall (sh : shared) : shared :=
  let '(p1, s1) := step AtCheck sh in
  let '(p2, s2) := step p1 s1 in
  let '(_, s3) := step p2 s2 in
  s3.

(** Modelled from the spec: the guard as an atomic check-and-set, where
    the read of the flag and its write are one action. *)
Definition stepAtomic (p : pc) (sh : shared) : pc * shared :=
  match p with
  | AtCheck => if flag sh then (Past, sh)
               else (AtGo, {| flag := true; started := started sh |})
  | AtGo => (Past, {| flag := flag sh; started := S (started sh) |})
  | AtSet => (Past, sh)
  | Past => (Past, sh)
  end.

Definition stepThreadAtomic (i : nat) (c : list pc * shared)
    : list pc * shared :=
  match fst c !! i with
  | Some p => let '(p', sh') := stepAtomic p (snd c) in
              (<[i := p']> (fst c), sh')
  | None => c
  end.

Fixpoint runAtomic (schedule : list nat) (c : list pc * shared)
    : list pc * shared :=
  match schedule with
  | [] => c
  | i :: rest => runAtomic rest (stepThreadAtomic i c)
  end.

(** The number of calls that stand at [AtGo]. *)
Definition pending (ps : list pc) : nat :=
  length (filter (fun p => p = AtGo) ps).

End SchedulerGuard.

(** ** Sample collaborators, to run the model on concrete inputs *)

Module Demo.

(** The [dbservice] state: the aggregation buckets, and the answer the
    prior-scan lookup gives. *)
Record dbState := {
  buckets : gmap string (list Content);
  prior : string * bool * option Err
}.

(** Modelled from the spec: the Aggregation Store's accept operation
    (section 4.3).  The item is appended to the subscriber's bucket; with
    the ignore-length directive it is only queued; otherwise a bucket whose
    size reaches the threshold is returned and cleared, and a smaller one
    yields the empty batch. *)
Definition accept (subscriberId : string) (content : Content)
    (threshold : Z) (ignoreLength : bool) (d : dbState)
    : (list Content * option Err) * dbState :=
  let bucket := default [] (buckets d !! subscriberId)
                ++ match content with None => [] | Some _ => [content] end in
  if ignoreLength
  then (([], None),
        {| buckets := <[subscriberId := bucket]> (buckets d); prior := prior d |})
  else if threshold <=? Z.of_nat (length bucket)
  then ((bucket, None),
        {| buckets := <[subscriberId := []]> (buckets d); prior := prior d |})
  else (([], None),
        {| buckets := <[subscriberId := bucket]> (buckets d); prior := prior d |}).

(** A store that cannot write: it reads the bucket and appends the item as
    [accept] does, but every write fails, so the stored buckets stay as they
    are.  When the bucket has reached the threshold, the batch it has built
    is handed back together with the error of the failed write. *)
Definition acceptFailing (subscriberId : string) (content : Content)
    (threshold : Z) (ignoreLength : bool) (d : dbState)
    : (list Content * option Err) * dbState :=
  let bucket := default [] (buckets d !! subscriberId)
                ++ match content with None => [] | Some _ => [content] end in
  if ignoreLength then (([], Some (MkErr "bolt: timeout")), d)
  else if threshold <=? Z.of_nat (length bucket)
  then ((bucket, Some (MkErr "bolt: timeout")), d)
  else (([], Some (MkErr "bolt: timeout")), d).

(** A parser that reads the payload as the image name. *)
Definition parse (source : string) : option ScanImageInfo * option Err :=
  if String.eqb source "" then (None, Some (MkErr "unexpected end of JSON input"))
  else (Some {| Image := source; Registry := "registry.local";
                Negligible := 0; Low := 2; Medium := 0; High := 1;
                Critical := 0; Disallowed := true; Resources := [];
                ApplicationScopeOwners := ["team-a"; "team-b"] |}, None).

Definition complies (patterns : list string) (target : string) : bool :=
  existsb (String.eqb target) patterns.

Definition describe (_ : unit) (info : ScanImageInfo)
    (prev : option ScanImageInfo) (link : string) : string :=
  match prev with
  | Some _ => "changes: " +:+ link
  | None => "report: " +:+ link
  end.

Definition titleOf (c : Content) : string :=
  match c with
  | Some f => default "" (f !! "title")
  | None => ""
  end.

Definition merge (scans : list Content) (_ : unit) : Content :=
  Some (buildMapContent "aggregated report"
                        (strings.Join (map titleOf scans) ", ") "").

Definition defaults : Settings :=
  {| PluginName := ""; AquaServer := ""; PolicyShowAll := false;
     PolicyMinVulnerability := ""; IgnoreRegistry := [];
     IgnoreImageName := []; PolicyImageName := []; PolicyRegistry := [];
     PolicyNonCompliant := false; PolicyOnlyFixAvailable := false;
     PolicyOPA := []; AggregateIssuesNumber := 0;
     AggregateTimeoutSeconds := 0; IsScheduleRun := false |}.

(** A lower-casing that knows ASCII letters only. *)
Definition asciiLowering : strings.Lowering :=
  {| strings.ToLower := strings.lowerASCII;
     strings.ToLower_ascii := fun s _ => eq_refl |}.

Definition withStore
    (store : string -> Content -> Z -> bool -> dbState
             -> (list Content * option Err) * dbState) : Collaborators :=
  {| lowering := asciiLowering;
     LayoutProvider := unit;
     DB := dbState;
     parseImageInfo := parse;
     HandleCurrentInfo := fun _ d => (prior d, d);
     AggregateScans := store;
     compliesPolicies := complies;
     isRegoCorrect := fun _ _ => (true, None);
     GenTicketDescription := describe;
     buildAggregatedContent := merge;
     GetDefaultSettings := defaults |}.

Definition collaborators : Collaborators := withStore accept.

(** Settings of a subscriber that aggregates by count and by time. *)
Definition settingsOf (count timeout : Z) (showAll : bool) : Settings :=
  {| PluginName := "jira"; AquaServer := "https://aqua.local/";
     PolicyShowAll := showAll;
     PolicyMinVulnerability := ""; IgnoreRegistry := [];
     IgnoreImageName := []; PolicyImageName := []; PolicyRegistry := [];
     PolicyNonCompliant := false; PolicyOnlyFixAvailable := false;
     PolicyOPA := []; AggregateIssuesNumber := count;
     AggregateTimeoutSeconds := timeout; IsScheduleRun := false |}.

Definition plugin : Plugin unit := {| plgSettings := Some 7%nat; plgLayout := tt |}.

Definition stateOf (C : Collaborators) (d : @DB C) (st : Settings) : @State C :=
  {| db := d; heap := {[ 7%nat := st ]} |}.

Definition emptyDb (isNew : bool) : dbState :=
  {| buckets := ∅; prior := ("", isNew, None) |}.

(** What [parse] makes of a payload. *)
Definition infoOf (image : string) : ScanImageInfo :=
  {| Image := image; Registry := "registry.local";
     Negligible := 0; Low := 2; Medium := 0; High := 1;
     Critical := 0; Disallowed := true; Resources := [];
     ApplicationScopeOwners := ["team-a"; "team-b"] |}.

Definition scanOf (image : string) (fresh : bool) : ScanService :=
  {| scanInfo := Some (infoOf image); prevScan := None; isNew := fresh |}.

(** The content built for the scan of [image]. *)
Definition contentOf (image : string) : Fields :=
  buildContent (C := collaborators) (scanOf image true) (infoOf image)
               plugin "https://aqua.local/" image "team-a;team-b".

(** A store that holds [items] in the bucket of subscriber "jira". *)
Definition queued (items : list Content) (fresh : bool) : dbState :=
  {| buckets := {[ "jira" := items ]}; prior := ("", fresh, None) |}.

End Demo.

(** ** Reading a list of events *)

Definition isSend {L : Type} (e : Event L) : bool :=
  match e with EvSend _ _ => true | _ => false end.

Definition isStoreCall {L : Type} (e : Event L) : bool :=
  match e with EvAggregateScans _ _ _ _ => true | _ => false end.

Definition isGo {L : Type} (e : Event L) : bool :=
  match e with EvGoScheduler _ _ => true | _ => false end.

(** The dispatches, the calls of the aggregation store, and the scheduler
    goroutines started, among the events. *)
Definition sends {L : Type} (t : list (Event L)) : list (Event L) :=
  List.filter isSend t.

Definition storeCalls {L : Type} (t : list (Event L)) : list (Event L) :=
  List.filter isStoreCall t.

Definition goes {L : Type} (t : list (Event L)) : list (Event L) :=
  List.filter isGo t.

(** The severity levels in rank order, as the claim about the
    minimum-severity gate names them. *)
Inductive Severity := SevNegligible | SevLow | SevMedium | SevHigh | SevCritical.

Definition rank (l : Severity) : nat :=
  match l with
  | SevNegligible => 0 | SevLow => 1 | SevMedium => 2
  | SevHigh => 3 | SevCritical => 4
  end.

Definition levelName (l : Severity) : string :=
  match l with
  | SevNegligible => "negligible" | SevLow => "low" | SevMedium => "medium"
  | SevHigh => "high" | SevCritical => "critical"
  end.

(** The finding-count of a scan at a level. *)
Definition countAt (info : ScanImageInfo) (l : Severity) : Z :=
  match l with
  | SevNegligible => Negligible info | SevLow => Low info
  | SevMedium => Medium info | SevHigh => High info
  | SevCritical => Critical info
  end.

(** The scheduler goroutines among the events that were started for a plugin
    whose settings struct lies at address [p]. *)
Definition isGoAt {L : Type} (p : nat) (e : Event L) : bool :=
  match e with
  | EvGoScheduler _ plg => bool_decide (plgSettings plg = Some p)
  | _ => false
  end.

Definition goesAt {L : Type} (p : nat) (t : list (Event L)) : list (Event L) :=
  List.filter (isGoAt p) t.

(** The [IsScheduleRun] flag of the struct at address [p]; down when there is
    no struct there. *)
Definition flagAt (h : gmap nat Settings) (p : nat) : bool :=
  match h !! p with
  | Some st => IsScheduleRun st
  | None => false
  end.

(** How many more schedulers the flag at [p] lets a call start. *)
Definition startsLeft (h : gmap nat Settings) (p : nat) : nat :=
  if flagAt h p then 0%nat else 1%nat.

(** The heap [h'] differs from [h] at most by flags that were raised: no
    struct appears or disappears, and no other field changes. *)
Definition flagsRaised (h h' : gmap nat Settings) : Prop :=
  forall q, h' !! q = h !! q \/ h' !! q = setIsScheduleRun true <$> (h !! q).

(** A run from heap [h] to heap [h'] with events [t] only raised flags, and
    started no more schedulers for the struct at any address than the flag
    there allowed. *)
Definition startsWithinFlags {L : Type} (h h' : gmap nat Settings)
    (t : list (Event L)) : Prop :=
  flagsRaised h h'
  /\ forall p, is_Some (h !! p) ->
               (length (goesAt p t) + startsLeft h' p <= startsLeft h p)%nat.

(** Calls of [ResultHandling] that follow one another on the same plugin map,
    each with its own receiver and payload. *)
Fixpoint handleAll `{C : Collaborators} (calls : list (ScanService * string))
    (plugins : list (string * option (Plugin LayoutProvider))) : M unit :=
  match calls with
  | [] => ret tt
  | (scan, input) :: rest =>
      ResultHandling scan input plugins;; handleAll rest plugins
  end.

(** The entries of the plugin map that hold a plugin. *)
Definition presentPlugins {L : Type} (plugins : list (string * option (Plugin L)))
    : list (string * option (Plugin L)) :=
  List.filter (fun e => match snd e with Some _ => true | None => false end)
              plugins.

(** Sample collaborators whose default settings aggregate by time. *)
Definition timedDefaults : Collaborators :=
  {| lowering := Demo.asciiLowering;
     LayoutProvider := unit;
     DB := Demo.dbState;
     parseImageInfo := Demo.parse;
     HandleCurrentInfo := fun _ d => (Demo.prior d, d);
     AggregateScans := Demo.accept;
     compliesPolicies := Demo.complies;
     isRegoCorrect := fun _ _ => (true, None);
     GenTicketDescription := Demo.describe;
     buildAggregatedContent := Demo.merge;
     GetDefaultSettings := Demo.settingsOf 0 60 true |}.

(** Sample collaborators whose parser rejects the payload "corrupt". *)
Definition strictParser : Collaborators :=
  {| lowering := Demo.asciiLowering;
     LayoutProvider := unit;
     DB := Demo.dbState;
     parseImageInfo := fun source =>
       if String.eqb source "corrupt"
       then (None, Some (MkErr "invalid character"))
       else Demo.parse source;
     HandleCurrentInfo := fun _ d => (Demo.prior d, d);
     AggregateScans := Demo.accept;
     compliesPolicies := Demo.complies;
     isRegoCorrect := fun _ _ => (true, None);
     GenTicketDescription := Demo.describe;
     buildAggregatedContent := Demo.merge;
     GetDefaultSettings := Demo.defaults |}.

(** * Properties *)

(** ** The monad and the store helper *)

Ltac run_m :=
  cbv [mbind M_bind bind mret M_ret ret emit logPrint send GetSettings
       callAggregateScans callHandleCurrentInfo callParseImageInfo
       markScheduleRun result final events] in *.

Section HelperFacts.
Context `{C : Collaborators}.

Lemma sends_app (t1 t2 : list (Event LayoutProvider)) :
  sends (t1 ++ t2) = sends t1 ++ sends t2.
Proof. apply List.filter_app. Qed.

Lemma storeCalls_app (t1 t2 : list (Event LayoutProvider)) :
  storeCalls (t1 ++ t2) = storeCalls t1 ++ storeCalls t2.
Proof. apply List.filter_app. Qed.

Lemma goes_app (t1 t2 : list (Event LayoutProvider)) :
  goes (t1 ++ t2) = goes t1 ++ goes t2.
Proof. apply List.filter_app. Qed.

(** [logAll] writes the lines and touches nothing. *)
Lemma logAll_run (ms : list LogMsg) (s : State) :
  logAll ms s = (tt, s, map EvLog ms).
Proof.
  induction ms as [|m ms IH]; simpl; [reflexivity|].
  run_m. rewrite IH. reflexivity.
Qed.

Lemma sends_logs (ms : list LogMsg) :
  sends (map (@EvLog LayoutProvider) ms) = [].
Proof. induction ms; simpl; auto. Qed.

Lemma storeCalls_logs (ms : list LogMsg) :
  storeCalls (map (@EvLog LayoutProvider) ms) = [].
Proof. induction ms; simpl; auto. Qed.

(** The helper of lines 146-157, by what the store answers. *)
Lemma AggregateScanAndGetQueue_run (pluginName : string)
    (currentContent : Content) (counts : Z) (ignoreLength : bool)
    (s : State) (batch : list Content) (err : option Err) (db' : DB) :
  AggregateScans pluginName currentContent counts ignoreLength (db s)
    = ((batch, err), db') ->
  AggregateScanAndGetQueue pluginName currentContent counts ignoreLength s
  = (match err with
     | Some _ => batch
     | None => if (negb (lenMap currentContent =? 0)%nat
                   && (length batch =? 0)%nat)%bool then [] else batch
     end,
     {| db := db'; heap := heap s |},
     EvAggregateScans pluginName currentContent counts ignoreLength
     :: match err with
        | Some e => [EvLog (LogAggregateError e)]
        | None => if (negb (lenMap currentContent =? 0)%nat
                      && (length batch =? 0)%nat)%bool
                  then [EvLog (LogQueued pluginName)] else []
        end).
Proof.
  intros H. unfold AggregateScanAndGetQueue. run_m. rewrite H.
  destruct err; simpl; [reflexivity|].
  destruct (negb (lenMap currentContent =? 0)%nat
            && (length batch =? 0)%nat)%bool; reflexivity.
Qed.

(** Without an error the helper returns a batch exactly as long as the
    store's. *)
Lemma queue_or_batch (currentContent : Content) (batch : list Content) :
  (if (negb (lenMap currentContent =? 0)%nat
       && (length batch =? 0)%nat)%bool then [] else batch) = batch.
Proof.
  destruct batch; simpl; [|rewrite andb_false_r; reflexivity].
  destruct (negb _); reflexivity.
Qed.

End HelperFacts.

(** ** One subscriber *)

Section Subscriber.
Context `{C : Collaborators}.
Variables (scan : ScanService) (info : ScanImageInfo).
Variables (input owners name : string) (plg : Plugin LayoutProvider).

(** The loop body for a non-nil plugin: the gate's log lines, then, for a
    passing subscriber, lines 93-138 on the built content. *)
Lemma handlePlugin_run (s : State) (target : option nat) (cs : Settings)
    (logs : list LogMsg) (pass : bool) :
  currentSettingsOf (lookupSettings s plg) = (target, cs) ->
  policyGate scan info cs name input = (logs, pass) ->
  handlePlugin scan info input owners name (Some plg) s
  = if pass then
      let r := aggregateAndSend name plg cs target
                 (buildContent scan info plg (serverOf (lookupSettings s plg))
                               input owners) s in
      (tt, final r, map EvLog logs ++ events r)
    else (tt, s, map EvLog logs).
Proof.
  intros Hcs Hgate. unfold handlePlugin.
  cbv [mbind M_bind bind GetSettings]. rewrite Hcs, Hgate, logAll_run.
  destruct pass.
  - simpl. destruct (aggregateAndSend _ _ _ _ _ s) as [[[] s'] t].
    reflexivity.
  - cbv [ret]. rewrite app_nil_r. reflexivity.
Qed.

(** Lines 103-112 with count-based aggregation on: one call of the store;
    the dispatch is decided by the batch the helper returns. *)
Lemma aggregateAndSend_count (s : State) (target : option nat)
    (cs : Settings) (content0 : Fields) (batch : list Content)
    (err : option Err) (db' : DB) :
  0 < AggregateIssuesNumber cs ->
  AggregateScans name (Some content0) (AggregateIssuesNumber cs) false (db s)
    = ((batch, err), db') ->
  let r := aggregateAndSend name plg cs target content0 s in
  storeCalls (events r)
    = [EvAggregateScans name (Some content0) (AggregateIssuesNumber cs) false]
  /\ sends (events r)
     = (if nonEmpty batch
           && (0 <? lenMap (buildAggregatedContent batch (plgLayout plg)))%nat
        then [EvSend plg (buildAggregatedContent batch (plgLayout plg))]
        else [])
  /\ db (final r) = db'.
Proof.
  intros Hn Hst. unfold aggregateAndSend.
  apply Z.ltb_lt in Hn. rewrite Hn.
  cbv [mbind M_bind bind].
  rewrite (AggregateScanAndGetQueue_run _ _ _ _ _ _ _ _ Hst).
  assert (Hq : match err with
               | Some _ => batch
               | None => if (negb (lenMap (Some content0) =? 0)%nat
                             && (length batch =? 0)%nat)%bool
                         then [] else batch
               end = batch)
    by (destruct err; [reflexivity | apply queue_or_batch]).
  rewrite Hq. clear Hq.
  destruct (lenMap (Some content0) =? 0)%nat,
    (0 <? AggregateTimeoutSeconds cs), (IsScheduleRun cs),
    batch as [|c q], err as [e|], target as [p|];
    cbn -[buildAggregatedContent lenMap Nat.ltb];
    try destruct (0 <? lenMap (buildAggregatedContent (c :: q) (plgLayout plg)))%nat;
    cbn; auto.
Qed.

(** Lines 114-118 with time-based aggregation on and count-based
    aggregation off: the item is queued and nothing is dispatched. *)
Lemma aggregateAndSend_time (s : State) (target : option nat)
    (cs : Settings) (content0 : Fields) :
  ~ 0 < AggregateIssuesNumber cs ->
  0 < AggregateTimeoutSeconds cs ->
  let r := aggregateAndSend name plg cs target content0 s in
  storeCalls (events r) = [EvAggregateScans name (Some content0) 0 true]
  /\ sends (events r) = [].
Proof.
  intros Hn Ht. unfold aggregateAndSend.
  apply Z.ltb_nlt in Hn. apply Z.ltb_lt in Ht. rewrite Hn, Ht.
  cbv [mbind M_bind bind].
  destruct (AggregateScans name (Some content0) 0 true (db s))
    as [[batch err] db'] eqn:Hst.
  cbn [ret negb].
  rewrite (AggregateScanAndGetQueue_run _ _ _ _ _ _ _ _ Hst).
  destruct (lenMap (Some content0) =? 0)%nat, (IsScheduleRun cs),
    batch as [|c q], err as [e|], target as [p|]; cbn; auto.
Qed.

(** Lines 126-129: the flush calls the store once and dispatches the
    merged batch when the batch is not empty. *)
Lemma schedulerFlush_run (s : State) (batch : list Content)
    (err : option Err) (db' : DB) :
  AggregateScans name None 0 false (db s) = ((batch, err), db') ->
  schedulerFlush name plg s
  = (tt, {| db := db'; heap := heap s |},
     EvAggregateScans name None 0 false
     :: match err with Some e => [EvLog (LogAggregateError e)] | None => [] end
     ++ (if nonEmpty batch
         then [EvSend plg (buildAggregatedContent batch (plgLayout plg))]
         else [])).
Proof.
  intros Hst. unfold schedulerFlush. cbv [mbind M_bind bind].
  rewrite (AggregateScanAndGetQueue_run _ _ _ _ _ _ _ _ Hst).
  destruct err as [e|], batch as [|c q]; reflexivity.
Qed.

(** Lines 119-133 on entry to the time-based branch: the goroutine is
    started exactly when the flag read is down. *)
Lemma aggregateAndSend_time_goes (s : State) (target : option nat)
    (cs : Settings) (content0 : Fields) :
  ~ 0 < AggregateIssuesNumber cs ->
  0 < AggregateTimeoutSeconds cs ->
  goes (events (aggregateAndSend name plg cs target content0 s))
  = (if IsScheduleRun cs then [] else [EvGoScheduler name plg]).
Proof.
  intros Hn Ht. unfold aggregateAndSend.
  apply Z.ltb_nlt in Hn. apply Z.ltb_lt in Ht. rewrite Hn, Ht.
  cbv [mbind M_bind bind].
  destruct (AggregateScans name (Some content0) 0 true (db s))
    as [[batch err] db'] eqn:Hst.
  cbn [ret negb].
  rewrite (AggregateScanAndGetQueue_run _ _ _ _ _ _ _ _ Hst).
  destruct (lenMap (Some content0) =? 0)%nat, (IsScheduleRun cs),
    batch as [|c q], err as [e|], target as [p|]; cbn; auto.
Qed.

(** Lines 124-130: for a plugin that has settings, a round of the loop is
    the flush of lines 126-129 followed by the remaining rounds. *)
Lemma schedulerLoop_round (rounds : nat) (s : State) :
  is_Some (lookupSettings s plg) ->
  events (schedulerLoop (S rounds) name plg s)
  = events (schedulerFlush name plg s)
    ++ events (schedulerLoop rounds name plg
                 (final (schedulerFlush name plg s))).
Proof.
  intros Hset. cbn [schedulerLoop]. cbv [mbind M_bind bind GetSettings].
  destruct (lookupSettings s plg) as [x|]; [|destruct Hset; discriminate].
  destruct (schedulerFlush name plg s) as [[[] s1] t1].
  unfold final, events. cbn [fst snd].
  destruct (schedulerLoop rounds name plg s1) as [[o s2] t2].
  reflexivity.
Qed.

(** Lines 121-131: the goroutine logs that it is active and enters the
    loop. *)
Lemma scheduler_enters_loop (rounds : nat) (s : State) :
  is_Some (lookupSettings s plg) ->
  events (scheduler rounds name plg s)
  = EvLog (LogSchedulerActive name)
    :: events (schedulerLoop rounds name plg s).
Proof.
  intros Hset. unfold scheduler. cbv [mbind M_bind bind GetSettings].
  destruct (lookupSettings s plg) as [x|]; [|destruct Hset; discriminate].
  cbv [logPrint emit].
  destruct (schedulerLoop rounds name plg s) as [[o s2] t2].
  reflexivity.
Qed.

End Subscriber.

(** ** Count-based and time-based aggregation *)

(** C1.  For a subscriber whose AggregateIssuesNumber is greater than 0, the
    content of a passing scan is handed to the aggregation store with that
    threshold, in the one store call of the iteration.  When the store
    returns a non-empty batch, the iteration dispatches exactly once, and
    the content dispatched is the merged rendering of that batch; when the
    store returns an empty batch, the iteration dispatches nothing and the
    store keeps the state it answered with.  The merged rendering of a
    non-empty batch is taken to be a non-empty content, which is the
    contract of the external batch builder. *)
Theorem count_based_aggregation `{C : Collaborators}
    (scan : ScanService) (info : ScanImageInfo) (input owners name : string)
    (plg : Plugin LayoutProvider) (s : State) (target : option nat)
    (cs : Settings) (logs : list LogMsg) (batch : list Content)
    (err : option Err) (db' : DB) :
  currentSettingsOf (lookupSettings s plg) = (target, cs) ->
  policyGate scan info cs name input = (logs, true) ->
  0 < AggregateIssuesNumber cs ->
  AggregateScans name
    (Some (buildContent scan info plg (serverOf (lookupSettings s plg))
                        input owners))
    (AggregateIssuesNumber cs) false (db s) = ((batch, err), db') ->
  (forall q, q <> [] ->
             lenMap (buildAggregatedContent q (plgLayout plg)) <> 0%nat) ->
  let r := handlePlugin scan info input owners name (Some plg) s in
  storeCalls (events r)
    = [EvAggregateScans name
         (Some (buildContent scan info plg (serverOf (lookupSettings s plg))
                             input owners))
         (AggregateIssuesNumber cs) false]
  /\ (batch <> [] ->
      sends (events r)
      = [EvSend plg (buildAggregatedContent batch (plgLayout plg))])
  /\ (batch = [] -> sends (events r) = [])
  /\ db (final r) = db'.
Proof.
  intros Hcs Hgate Hn Hst Hmerge r. subst r.
  rewrite (handlePlugin_run _ _ _ _ _ _ _ _ _ _ _ Hcs Hgate).
  destruct (aggregateAndSend_count name plg s target cs _ batch err db' Hn Hst)
    as (Hcalls & Hsends & Hdb).
  cbv zeta in *. unfold events, final in *. cbn [fst snd] in *.
  rewrite storeCalls_app, sends_app, storeCalls_logs, sends_logs.
  cbn [app]. repeat split; auto.
  - intros Hne. rewrite Hsends.
    destruct batch as [|c q]; [congruence|]. cbn [nonEmpty andb].
    specialize (Hmerge (c :: q) Hne).
    destruct (lenMap (buildAggregatedContent (c :: q) (plgLayout plg)));
      [congruence | reflexivity].
  - intros ->. exact Hsends.
Qed.

(** The third scan of a window of three is dispatched with the two scans
    that were queued before it. *)
Lemma count_based_aggregation_witness :
  let r := handlePlugin (C := Demo.collaborators)
             (Demo.scanOf "c" true) (Demo.infoOf "c") "c" "team-a;team-b"
             "jira" (Some Demo.plugin)
             (Demo.stateOf Demo.collaborators
                (Demo.queued [Some (Demo.contentOf "a");
                              Some (Demo.contentOf "b")] true)
                (Demo.settingsOf 3 0 false)) in
  sends (events r)
  = [EvSend Demo.plugin
       (Demo.merge [Some (Demo.contentOf "a"); Some (Demo.contentOf "b");
                    Some (Demo.contentOf "c")] tt)]
  /\ Demo.buckets (db (final r)) !! "jira" = Some [].
Proof.
  cbv zeta.
  pose proof (count_based_aggregation (C := Demo.collaborators)
    (Demo.scanOf "c" true) (Demo.infoOf "c") "c" "team-a;team-b" "jira"
    Demo.plugin
    (Demo.stateOf Demo.collaborators
       (Demo.queued [Some (Demo.contentOf "a"); Some (Demo.contentOf "b")] true)
       (Demo.settingsOf 3 0 false))
    (Some 7%nat) (Demo.settingsOf 3 0 false) []
    [Some (Demo.contentOf "a"); Some (Demo.contentOf "b");
     Some (Demo.contentOf "c")]
    None
    (Demo.queued [] true)) as W.
  destruct W as (_ & Hsend & _ & _).
  - reflexivity.
  - reflexivity.
  - reflexivity.
  - reflexivity.
  - intros q _. vm_compute. discriminate.
  - split.
    + apply Hsend. discriminate.
    + reflexivity.
Defined.

(** C2.  For a subscriber whose AggregateTimeoutSeconds is greater than 0
    and whose item was not handed to the store by the count-based step, the
    item is handed to the store with threshold 0 and the ignore-length
    directive, the iteration dispatches nothing, and it starts the
    scheduler goroutine for the subscriber unless the flag says one runs.
    That goroutine, for a plugin that has settings, flushes each time it
    wakes up: it drains the store once, and it dispatches the merged content
    of the drained queue when that queue is not empty and dispatches nothing
    when it is empty; the rounds that follow do the same from the state the
    flush left. *)
Theorem time_based_aggregation `{C : Collaborators}
    (scan : ScanService) (info : ScanImageInfo) (input owners name : string)
    (plg : Plugin LayoutProvider) (s : State) (target : option nat)
    (cs : Settings) (logs : list LogMsg)
    (s2 : State) (queue : list Content) (err : option Err) (db2 : DB)
    (rounds : nat) :
  currentSettingsOf (lookupSettings s plg) = (target, cs) ->
  policyGate scan info cs name input = (logs, true) ->
  ~ 0 < AggregateIssuesNumber cs ->
  0 < AggregateTimeoutSeconds cs ->
  is_Some (lookupSettings s2 plg) ->
  AggregateScans name None 0 false (db s2) = ((queue, err), db2) ->
  let r := handlePlugin scan info input owners name (Some plg) s in
  let f := schedulerFlush name plg s2 in
  let g := scheduler (S rounds) name plg s2 in
  let later := schedulerLoop rounds name plg {| db := db2; heap := heap s2 |} in
  storeCalls (events r)
    = [EvAggregateScans name
         (Some (buildContent scan info plg (serverOf (lookupSettings s plg))
                             input owners)) 0 true]
  /\ sends (events r) = []
  /\ goes (events r)
     = (if IsScheduleRun cs then [] else [EvGoScheduler name plg])
  /\ (queue <> [] ->
      sends (events f)
      = [EvSend plg (buildAggregatedContent queue (plgLayout plg))])
  /\ (queue = [] -> sends (events f) = [])
  /\ events g
     = EvLog (LogSchedulerActive name) :: events f ++ events later
  /\ storeCalls (events g)
     = EvAggregateScans name None 0 false :: storeCalls (events later)
  /\ (queue <> [] ->
      sends (events g)
      = EvSend plg (buildAggregatedContent queue (plgLayout plg))
        :: sends (events later))
  /\ (queue = [] -> sends (events g) = sends (events later)).
Proof.
  intros Hcs Hgate Hn Ht Hset Hst r f g later. subst r f g later.
  rewrite (handlePlugin_run _ _ _ _ _ _ _ _ _ _ _ Hcs Hgate).
  rewrite (scheduler_enters_loop name plg (S rounds) s2 Hset).
  rewrite (schedulerLoop_round name plg rounds s2 Hset).
  rewrite (schedulerFlush_run _ _ _ _ _ _ Hst).
  destruct (aggregateAndSend_time name plg s target cs
              (buildContent scan info plg (serverOf (lookupSettings s plg))
                            input owners) Hn Ht) as (Hcalls & Hsends).
  pose proof (aggregateAndSend_time_goes name plg s target cs
                (buildContent scan info plg (serverOf (lookupSettings s plg))
                              input owners) Hn Ht) as Hgoes.
  cbv zeta in *. unfold events, final in *. cbn [fst snd] in *.
  rewrite storeCalls_app, sends_app, goes_app, storeCalls_logs, sends_logs.
  assert (Hgl : goes (map (@EvLog LayoutProvider) logs) = [])
    by (clear; induction logs; cbn; auto).
  rewrite Hgl. cbn [app].
  split; [exact Hcalls|]. split; [exact Hsends|]. split; [exact Hgoes|].
  split; [intros Hne; destruct queue as [|c q]; [congruence|];
          destruct err; reflexivity|].
  split; [intros ->; destruct err; reflexivity|].
  split; [reflexivity|].
  split; [destruct err, queue; reflexivity|].
  split.
  - intros Hne. destruct queue as [|c q]; [congruence|].
    destruct err; reflexivity.
  - intros ->. destruct err; reflexivity.
Qed.

(** A scan is queued under a sixty second interval and the scheduler is
    started; its first round drains and dispatches the scan, its second
    round finds the bucket empty. *)
Lemma time_based_aggregation_witness :
  let s := Demo.stateOf Demo.collaborators (Demo.emptyDb true)
             (Demo.settingsOf 0 60 false) in
  let r := handlePlugin (C := Demo.collaborators)
             (Demo.scanOf "a" true) (Demo.infoOf "a") "a" "team-a;team-b"
             "jira" (Some Demo.plugin) s in
  let g := scheduler (C := Demo.collaborators) 2 "jira" Demo.plugin (final r) in
  storeCalls (events r)
    = [EvAggregateScans "jira" (Some (Demo.contentOf "a")) 0 true]
  /\ sends (events r) = []
  /\ goes (events r) = [EvGoScheduler "jira" Demo.plugin]
  /\ sends (events g)
     = [EvSend Demo.plugin (Demo.merge [Some (Demo.contentOf "a")] tt)]
  /\ storeCalls (events g)
     = [EvAggregateScans "jira" None 0 false;
        EvAggregateScans "jira" None 0 false].
Proof.
  cbv zeta.
  pose proof (time_based_aggregation (C := Demo.collaborators)
    (Demo.scanOf "a" true) (Demo.infoOf "a") "a" "team-a;team-b" "jira"
    Demo.plugin
    (Demo.stateOf Demo.collaborators (Demo.emptyDb true)
       (Demo.settingsOf 0 60 false))
    (Some 7%nat) (Demo.settingsOf 0 60 false) []
    (final (handlePlugin (C := Demo.collaborators)
              (Demo.scanOf "a" true) (Demo.infoOf "a") "a" "team-a;team-b"
              "jira" (Some Demo.plugin)
              (Demo.stateOf Demo.collaborators (Demo.emptyDb true)
                 (Demo.settingsOf 0 60 false))))
    [Some (Demo.contentOf "a")] None (Demo.queued [] true) 1%nat) as W.
  destruct W as (Hcall & Hnone & Hgo & _ & _ & _ & Hdrain & Hflush & _).
  - reflexivity.
  - reflexivity.
  - vm_compute. discriminate.
  - reflexivity.
  - eexists. reflexivity.
  - reflexivity.
  - split; [exact Hcall|]. split; [exact Hnone|]. split; [exact Hgo|].
    split.
    + etransitivity; [apply Hflush; discriminate | reflexivity].
    + etransitivity; [exact Hdrain | reflexivity].
Defined.

(** ** Failures of the aggregation store *)

Section Range.
Context `{C : Collaborators}.

(** The loop goes on to the remaining entries with the state the
    iteration left. *)
Lemma rangePlugins_cons (scan : ScanService) (info : ScanImageInfo)
    (input owners name : string) (plugin : option (Plugin LayoutProvider))
    (rest : list (string * option (Plugin LayoutProvider))) (s : State) :
  rangePlugins scan info input owners ((name, plugin) :: rest) s
  = (tt,
     final (rangePlugins scan info input owners rest
              (final (handlePlugin scan info input owners name plugin s))),
     events (handlePlugin scan info input owners name plugin s)
     ++ events (rangePlugins scan info input owners rest
                  (final (handlePlugin scan info input owners name plugin s)))).
Proof.
  cbn [rangePlugins]. cbv [mbind M_bind bind final events].
  destruct (handlePlugin scan info input owners name plugin s) as [[[] s1] t1].
  cbn [fst snd].
  destruct (rangePlugins scan info input owners rest s1) as [[[] s2] t2].
  reflexivity.
Qed.

(** Lines 103-138 dispatch nothing when the store fails without a batch
    and an aggregation mode is on. *)
Lemma aggregateAndSend_store_down (name : string)
    (plg : Plugin LayoutProvider) (s : State) (target : option nat)
    (cs : Settings) (content0 : Fields) :
  0 < AggregateIssuesNumber cs \/ 0 < AggregateTimeoutSeconds cs ->
  (forall content counts ignoreLength, exists e db',
      AggregateScans name content counts ignoreLength (db s)
      = (([], Some e), db')) ->
  sends (events (aggregateAndSend name plg cs target content0 s)) = [].
Proof.
  intros Hmode Hdown.
  destruct (Z.ltb_spec 0 (AggregateIssuesNumber cs)) as [Hn|Hn].
  - destruct (Hdown (Some content0) (AggregateIssuesNumber cs) false)
      as (e & db' & Hst).
    destruct (aggregateAndSend_count name plg s target cs content0 [] (Some e)
                db' Hn Hst) as (_ & Hs & _).
    exact Hs.
  - destruct Hmode as [Hc|Ht]; [lia|].
    apply (aggregateAndSend_time name plg s target cs content0); [lia | exact Ht].
Qed.

End Range.

(** C6, as the code has it.  When the store's accept operation returns an
    error, the helper logs the error and returns the batch that came with
    the error, unchanged, whatever that batch is.  For an iteration whose
    call of the store fails, the error is logged; when the batch that came
    with the error is empty, no dispatch occurs for that subscriber on that
    call; and the loop continues with the remaining subscribers. *)
Theorem store_failure_handling `{C : Collaborators}
    (scan : ScanService) (info : ScanImageInfo) (input owners name : string)
    (plg : Plugin LayoutProvider)
    (rest : list (string * option (Plugin LayoutProvider)))
    (s : State) (target : option nat) (cs : Settings) (logs : list LogMsg)
    (batch : list Content) (e : Err) (db' : DB) :
  currentSettingsOf (lookupSettings s plg) = (target, cs) ->
  policyGate scan info cs name input = (logs, true) ->
  0 < AggregateIssuesNumber cs \/ 0 < AggregateTimeoutSeconds cs ->
  AggregateScans name
    (Some (buildContent scan info plg (serverOf (lookupSettings s plg))
                        input owners))
    (if 0 <? AggregateIssuesNumber cs then AggregateIssuesNumber cs else 0)
    (negb (0 <? AggregateIssuesNumber cs)) (db s)
  = ((batch, Some e), db') ->
  let r := handlePlugin scan info input owners name (Some plg) s in
  (forall (s0 : State) pluginName content counts ignoreLength batch0 e0 db0,
      AggregateScans pluginName content counts ignoreLength (db s0)
      = ((batch0, Some e0), db0) ->
      AggregateScanAndGetQueue pluginName content counts ignoreLength s0
      = (batch0, {| db := db0; heap := heap s0 |},
         [EvAggregateScans pluginName content counts ignoreLength;
          EvLog (LogAggregateError e0)]))
  /\ storeCalls (events r)
     = [EvAggregateScans name
          (Some (buildContent scan info plg (serverOf (lookupSettings s plg))
                              input owners))
          (if 0 <? AggregateIssuesNumber cs then AggregateIssuesNumber cs
           else 0)
          (negb (0 <? AggregateIssuesNumber cs))]
  /\ In (EvLog (LogAggregateError e)) (events r)
  /\ db (final r) = db'
  /\ (batch = [] -> sends (events r) = [])
  /\ events (rangePlugins scan info input owners ((name, Some plg) :: rest) s)
     = events r
       ++ events (rangePlugins scan info input owners rest (final r)).
Proof.
  intros Hcs Hgate Hmode Hst r. subst r.
  split.
  { intros s0 pluginName content counts ignoreLength batch0 e0 db0 Hst0.
    apply (AggregateScanAndGetQueue_run _ _ _ _ _ _ _ _ Hst0). }
  rewrite rangePlugins_cons.
  rewrite (handlePlugin_run _ _ _ _ _ _ _ _ _ _ _ Hcs Hgate).
  cbv zeta. unfold events, final. cbn [fst snd].
  rewrite storeCalls_app, sends_app, storeCalls_logs, sends_logs.
  cbn [app]. rewrite in_app_iff.
  unfold aggregateAndSend. cbv [mbind M_bind bind].
  destruct (0 <? AggregateIssuesNumber cs) eqn:Hn; cbn [negb] in Hst |- *.
  - rewrite (AggregateScanAndGetQueue_run _ _ _ _ _ _ _ _ Hst).
    destruct (0 <? AggregateTimeoutSeconds cs), (IsScheduleRun cs),
      batch as [|c q], target as [p|];
      cbn -[buildAggregatedContent lenMap Nat.ltb];
      try destruct (0 <? lenMap (buildAggregatedContent (c :: q)
                                   (plgLayout plg)))%nat;
      cbn; repeat split; auto; try discriminate.
  - assert (Ht : (0 <? AggregateTimeoutSeconds cs) = true).
    { destruct Hmode as [H|H]; [apply Z.ltb_lt in H; congruence|].
      apply Z.ltb_lt. exact H. }
    rewrite Ht. cbn [ret negb].
    rewrite (AggregateScanAndGetQueue_run _ _ _ _ _ _ _ _ Hst).
    destruct (IsScheduleRun cs), batch as [|c q], target as [p|];
      cbn; repeat split; auto.
Qed.

(** A store that cannot write, and a subscriber that aggregates by count.
    While the bucket is below the threshold the failure comes without a
    batch: nothing is dispatched and the next subscriber is still served.
    The helper returns what the store returned in both cases. *)
Lemma store_failure_handling_witness :
  let C := Demo.withStore Demo.acceptFailing in
  let s := Demo.stateOf C (Demo.emptyDb true) (Demo.settingsOf 2 0 false) in
  let other : Plugin unit := {| plgSettings := None; plgLayout := tt |} in
  let r := handlePlugin (C := C) (Demo.scanOf "a" true) (Demo.infoOf "a")
             "a" "team-a;team-b" "jira" (Some Demo.plugin) s in
  sends (events r) = []
  /\ In (EvLog (LogAggregateError (MkErr "bolt: timeout"))) (events r)
  /\ length (sends (events (rangePlugins (C := C) (Demo.scanOf "a" true)
                              (Demo.infoOf "a") "a" "team-a;team-b"
                              [("jira", Some Demo.plugin);
                               ("slack", Some other)] s)))
     = 1%nat
  /\ result (AggregateScanAndGetQueue (C := C) "jira"
               (Some (Demo.contentOf "b")) 1 false s)
     = [Some (Demo.contentOf "b")].
Proof.
  cbv zeta.
  pose proof (store_failure_handling (C := Demo.withStore Demo.acceptFailing)
    (Demo.scanOf "a" true) (Demo.infoOf "a") "a" "team-a;team-b" "jira"
    Demo.plugin
    [("slack", Some {| plgSettings := None; plgLayout := tt |})]
    (Demo.stateOf (Demo.withStore Demo.acceptFailing) (Demo.emptyDb true)
       (Demo.settingsOf 2 0 false))
    (Some 7%nat) (Demo.settingsOf 2 0 false) []
    [] (MkErr "bolt: timeout") (Demo.emptyDb true)) as W.
  destruct W as (Hhelper & _ & Hlog & _ & Hnone & Hnext).
  - reflexivity.
  - reflexivity.
  - left. vm_compute. reflexivity.
  - reflexivity.
  - split; [apply Hnone; reflexivity|]. split; [exact Hlog|]. split.
    + etransitivity; [exact (f_equal (fun t => length (sends t)) Hnext)|].
      rewrite sends_app, (Hnone eq_refl). reflexivity.
    + rewrite (Hhelper _ "jira" (Some (Demo.contentOf "b")) 1 false
                 [Some (Demo.contentOf "b")] (MkErr "bolt: timeout")
                 (Demo.emptyDb true)); reflexivity.
Defined.

(** C6, as the claim states it, fails: the store returns an error together
    with a batch, the helper returns that batch and not an empty queue, and
    the batch is dispatched on that call. *)
Lemma store_failure_counterexample :
  let C := Demo.withStore Demo.acceptFailing in
  let s := Demo.stateOf C (Demo.emptyDb true) (Demo.settingsOf 1 0 false) in
  let content := Some (Demo.contentOf "a") in
  AggregateScans (Collaborators := C) "jira" content 1 false (db s)
    = (([content], Some (MkErr "bolt: timeout")), db s)
  /\ result (AggregateScanAndGetQueue (C := C) "jira" content 1 false s)
     = [content]
  /\ sends (events (handlePlugin (C := C) (Demo.scanOf "a" true)
                      (Demo.infoOf "a") "a" "team-a;team-b" "jira"
                      (Some Demo.plugin) s))
     = [EvSend Demo.plugin (Demo.merge [content] tt)].
Proof.
  cbv zeta. split; [|split]; reflexivity.
Qed.

(** ** The drain request of the scheduler *)

(** C7, as the code has it.  Every call of the store that the scheduler
    makes, in its periodic flush and so in any number of rounds of its loop,
    has content nil, threshold 0 and ignoreLength false. *)
Theorem drain_request_arguments `{C : Collaborators}
    (rounds : nat) (nm : string) (plg : Plugin LayoutProvider) (s : State) :
  storeCalls (events (schedulerFlush nm plg s))
    = [EvAggregateScans nm None 0 false]
  /\ Forall (fun e => e = EvAggregateScans nm None 0 false)
            (storeCalls (events (scheduler rounds nm plg s))).
Proof.
  assert (Hflush : forall s', storeCalls (events (schedulerFlush nm plg s'))
                              = [EvAggregateScans nm None 0 false]).
  { intros s'.
    destruct (AggregateScans nm None 0 false (db s')) as [[batch err] db']
      eqn:Hst.
    rewrite (schedulerFlush_run _ _ _ _ _ _ Hst). unfold events. cbn [snd].
    destruct err, batch; reflexivity. }
  split; [apply Hflush|].
  assert (Hloop : forall n s',
             Forall (fun e => e = EvAggregateScans nm None 0 false)
                    (storeCalls (events (schedulerLoop n nm plg s')))).
  { induction n as [|n IH]; intros s'; cbn [schedulerLoop].
    - constructor.
    - cbv [mbind M_bind bind GetSettings].
      destruct (lookupSettings s' plg); [|constructor].
      specialize (Hflush s').
      destruct (schedulerFlush nm plg s') as [[[] s1] t1].
      specialize (IH s1).
      destruct (schedulerLoop n nm plg s1) as [[o s2] t2].
      unfold events in *. cbn [snd app] in *.
      rewrite storeCalls_app, Hflush. constructor; [reflexivity | exact IH]. }
  unfold scheduler. cbv [mbind M_bind bind GetSettings].
  destruct (lookupSettings s plg); [|constructor].
  specialize (Hloop rounds s). cbv [logPrint emit].
  destruct (schedulerLoop rounds nm plg s) as [[o s2] t2].
  unfold events in *. cbn [snd app] in *. exact Hloop.
Qed.

(** C7, as the claim states it, fails: the flush drains a queued item and
    dispatches it, and the one call it makes to the store has ignoreLength
    false, not true. *)
Lemma drain_request_counterexample :
  let s := Demo.stateOf Demo.collaborators
             (Demo.queued [Some (Demo.contentOf "a")] true)
             (Demo.settingsOf 0 60 false) in
  let f := schedulerFlush (C := Demo.collaborators) "jira" Demo.plugin s in
  events f
  = [EvAggregateScans "jira" None 0 false;
     EvSend Demo.plugin (Demo.merge [Some (Demo.contentOf "a")] tt)]
  /\ ~ In (EvAggregateScans "jira" None 0 true) (events f).
Proof.
  cbv zeta. split.
  - reflexivity.
  - vm_compute. intros [H|[H|[]]]; discriminate.
Qed.

(** ** The policy gate *)

(** C4.  For a scan that is not new and a subscriber whose PolicyShowAll is
    false, the gate rejects at the freshness check, and the iteration for
    that subscriber does nothing but write the log line of that check: the
    state is unchanged, the store is not called and nothing is dispatched,
    whatever the later checks would have said. *)
Theorem freshness_gate `{C : Collaborators}
    (scan : ScanService) (info : ScanImageInfo) (input owners name : string)
    (plg : Plugin LayoutProvider) (s : State) (target : option nat)
    (cs : Settings) :
  currentSettingsOf (lookupSettings s plg) = (target, cs) ->
  isNew scan = false ->
  PolicyShowAll cs = false ->
  policyGate scan info cs name input = ([LogOldScan], false)
  /\ handlePlugin scan info input owners name (Some plg) s
     = (tt, s, [EvLog LogOldScan]).
Proof.
  intros Hcs Hold Hall.
  assert (Hgate : policyGate scan info cs name input = ([LogOldScan], false))
    by (unfold policyGate; rewrite Hold, Hall; reflexivity).
  split; [exact Hgate|].
  rewrite (handlePlugin_run _ _ _ _ _ _ _ _ _ _ _ Hcs Hgate). reflexivity.
Qed.

(** A repeat scan reaches a subscriber that aggregates and has not opted
    into repeats. *)
Lemma freshness_gate_witness :
  let s := Demo.stateOf Demo.collaborators (Demo.emptyDb false)
             (Demo.settingsOf 3 60 false) in
  handlePlugin (C := Demo.collaborators) (Demo.scanOf "a" false)
    (Demo.infoOf "a") "a" "team-a;team-b" "jira" (Some Demo.plugin) s
  = (tt, s, [EvLog LogOldScan]).
Proof.
  cbv zeta.
  refine (proj2 (freshness_gate (C := Demo.collaborators)
    (Demo.scanOf "a" false) (Demo.infoOf "a") "a" "team-a;team-b" "jira"
    Demo.plugin
    (Demo.stateOf Demo.collaborators (Demo.emptyDb false)
       (Demo.settingsOf 3 60 false))
    (Some 7%nat) (Demo.settingsOf 3 60 false) _ _ _)); reflexivity.
Defined.

Section MinimumSeverity.
Context `{C : Collaborators}.

(** The index the table gives a level name is the level's rank. *)
Lemma SeverityIndexes_rank (l : Severity) :
  SeverityIndexes (levelName l) = Z.of_nat (rank l).
Proof. destruct l; reflexivity. Qed.

(** A spelling of a level name is not the empty string. *)
Lemma level_spelling_nonempty (minLevel : string) (l : Severity) :
  strings.ToLower minLevel = levelName l -> nonEmptyStr minLevel = true.
Proof.
  destruct minLevel; [|reflexivity].
  rewrite (strings.ToLower_ascii "" eq_refl). destruct l; discriminate.
Qed.

(** The loop of lines 172-176 finds nothing exactly when no count from
    the level's rank upwards is positive. *)
Lemma checkVulnerabilitiesLevel_false (info : ScanImageInfo)
    (minLevel : string) (level : Severity) :
  strings.ToLower minLevel = levelName level ->
  checkVulnerabilitiesLevel info minLevel = false
  <-> (forall l, (rank level <= rank l)%nat -> countAt info l <= 0).
Proof.
  intros Hname. unfold checkVulnerabilitiesLevel.
  rewrite Hname, SeverityIndexes_rank, Nat2Z.id.
  split.
  - intros H l Hl. apply Z.nlt_ge. intros Hpos. apply Z.ltb_lt in Hpos.
    destruct level, l; cbn in Hl; try lia; cbn in H, Hpos;
      rewrite ?orb_false_r in H;
      repeat (apply orb_false_iff in H; destruct H as [? H]); congruence.
  - intros H.
    pose proof (H SevNegligible) as H0. pose proof (H SevLow) as H1.
    pose proof (H SevMedium) as H2. pose proof (H SevHigh) as H3.
    pose proof (H SevCritical) as H4. cbn in H0, H1, H2, H3, H4.
    destruct level; cbn in *; rewrite ?orb_false_r;
      repeat (apply orb_false_iff; split); apply Z.ltb_ge; auto with lia.
Qed.

End MinimumSeverity.

(** C5.  For a subscriber whose configured minimum level is some spelling,
    in any letter case, of the name of a severity level, and for a scan that
    passes the freshness check, the subscriber is skipped by the
    minimum-severity check exactly when every finding-count at or above the
    rank of that level is zero, the ranks being
    Negligible < Low < Medium < High < Critical.  Finding-counts are taken
    to be non-negative. *)
Theorem minimum_severity_gate `{C : Collaborators}
    (scan : ScanService) (info : ScanImageInfo) (cs : Settings)
    (name input : string) (level : Severity) :
  strings.ToLower (PolicyMinVulnerability cs) = levelName level ->
  isNew scan = true \/ PolicyShowAll cs = true ->
  (forall l, 0 <= countAt info l) ->
  policyGate scan info cs name input = ([LogLowLevel name], false)
  <-> (forall l, (rank level <= rank l)%nat -> countAt info l = 0).
Proof.
  intros Hname Hfresh Hcounts.
  assert (Hzero : (forall l, (rank level <= rank l)%nat -> countAt info l = 0)
                  <-> checkVulnerabilitiesLevel
                        info (PolicyMinVulnerability cs) = false).
  { rewrite (checkVulnerabilitiesLevel_false info _ level Hname).
    split; intros H l Hl; specialize (H l Hl); specialize (Hcounts l); lia. }
  rewrite Hzero. unfold policyGate.
  assert (Hf : negb (isNew scan) && negb (PolicyShowAll cs) = false)
    by (destruct Hfresh as [-> | ->]; [reflexivity | apply andb_false_r]).
  rewrite Hf, (level_spelling_nonempty _ _ Hname). cbn [andb].
  destruct (checkVulnerabilitiesLevel info (PolicyMinVulnerability cs)).
  - cbn [negb]. split; [|discriminate].
    repeat match goal with
           | |- context [if ?b then _ else _] => destruct b
           | |- context [match ?p with (_, _) => _ end] => destruct p
           | |- context [match ?o with Some _ => _ | None => _ end] => destruct o
           end; discriminate.
  - cbn [negb]. split; reflexivity.
Qed.

(** A scan with two Low and one High finding: a subscriber that asks for
    "CRITICAL" is skipped, because the Critical count is zero. *)
Lemma minimum_severity_gate_witness :
  let cs := {| PluginName := "jira"; AquaServer := ""; PolicyShowAll := false;
               PolicyMinVulnerability := "CRITICAL"; IgnoreRegistry := [];
               IgnoreImageName := []; PolicyImageName := [];
               PolicyRegistry := []; PolicyNonCompliant := false;
               PolicyOnlyFixAvailable := false; PolicyOPA := [];
               AggregateIssuesNumber := 0; AggregateTimeoutSeconds := 0;
               IsScheduleRun := false |} in
  policyGate (C := Demo.collaborators) (Demo.scanOf "a" true) (Demo.infoOf "a")
             cs "jira" "a"
  = ([LogLowLevel "jira"], false).
Proof.
  cbv zeta.
  apply (minimum_severity_gate (C := Demo.collaborators) (Demo.scanOf "a" true)
           (Demo.infoOf "a") _ "jira" "a" SevCritical).
  - reflexivity.
  - left. reflexivity.
  - intros l. destruct l; vm_compute; discriminate.
  - intros l Hl. destruct l; cbn in Hl; try lia. reflexivity.
Defined.

(** ** The content builder *)

Section ContentBuilder.

Lemma hasPrefix_empty (s : string) : strings.hasPrefix s "" = true.
Proof. destruct s; reflexivity. Qed.

(** The escaping of line 181 leaves no slash in the image path. *)
Lemma ReplaceAll_slash_free (s : string) :
  ~ In "/"%char (String.list_ascii_of_string (strings.ReplaceAll s "/" "%2F")).
Proof.
  unfold strings.ReplaceAll.
  induction s as [|c s IH]; cbn; [tauto|].
  destruct (decide ("/"%char = c)) as [<-|Hne]; cbn.
  - rewrite hasPrefix_empty. cbn.
    intros [H|[H|[H|H]]]; try discriminate. exact (IH H).
  - intros [H|H]; [congruence | exact (IH H)].
Qed.

(** An image path without a slash is kept as it is. *)
Lemma ReplaceAll_no_slash (s : string) :
  ~ In "/"%char (String.list_ascii_of_string s) ->
  strings.ReplaceAll s "/" "%2F" = s.
Proof.
  unfold strings.ReplaceAll.
  induction s as [|c s IH]; cbn; [reflexivity|].
  intros Hnot. destruct (decide ("/"%char = c)) as [<-|Hne]; cbn.
  - exfalso. apply Hnot. left. reflexivity.
  - f_equal. apply IH. intros H. apply Hnot. right. exact H.
Qed.



End ContentBuilder.



(** ** Initialisation and the previous scan *)

Section Init.
Context `{C : Collaborators}.

(** [init] parses the payload, and parses a second time only when the
    lookup succeeded, the scan is new and a prior payload exists; that
    second parse is of the prior payload. *)
Lemma init_parses (scan : ScanService) (data : string) (s : State) :
  events (init scan data s) = [EvParse data]
  \/ exists si prevScanSource db',
       parseImageInfo data = (si, None)
       /\ HandleCurrentInfo si (db s) = ((prevScanSource, true, None), db')
       /\ prevScanSource <> ""
       /\ events (init scan data s) = [EvParse data; EvParse prevScanSource]
       /\ prevScan (fst (result (init scan data s)))
          = fst (parseImageInfo prevScanSource).
Proof.
  unfold init. run_m.
  destruct (parseImageInfo data) as [si [e|]] eqn:Hp; [left; reflexivity|].
  destruct (HandleCurrentInfo si (db s)) as [[[src fresh] [e|]] db'] eqn:Hh;
    [left; reflexivity|].
  destruct fresh; [|left; reflexivity].
  cbn [negb]. unfold nonEmptyStr.
  destruct (String.eqb_spec src "") as [->|Hne]; [left; reflexivity|].
  right. exists si, src, db'. cbn [negb].
  destruct (parseImageInfo src) as [ps err]. cbn. auto.
Qed.

(** The receiver that [ResultHandling] works with after line 25 is the
    one [init] leaves. *)
Lemma ResultHandling_scan (scan : ScanService) (input : string)
    (plugins : list (string * option (Plugin LayoutProvider))) (s : State) :
  fst (result (ResultHandling scan input plugins s))
  = fst (result (init scan input s)).
Proof.
  unfold ResultHandling. cbv [mbind M_bind bind result].
  destruct (init scan input s) as [[[scan' [e|]] s1] t1]; [reflexivity|].
  cbn [fst snd]. destruct (scanInfo scan') as [info|]; [|reflexivity].
  cbv [logPrint emit ret].
  destruct (rangePlugins scan' info input (ownersOf info) plugins s1)
    as [[[] s2] t2].
  reflexivity.
Qed.

End Init.

(** C9, as the code has it.  For a scan that the prior-scan lookup reports
    as not new, [init] parses nothing but the payload itself, whether or not
    a prior payload exists, and leaves the previous-scan state as it was
    before the call: nil on a fresh service.  The description renderer is
    therefore given, for a repeat scan and whatever the subscriber's
    settings are, the previous scan the receiver already held, and none when
    it held none.  For every scan, a second parse happens only when the scan
    is new and a prior payload exists. *)
Theorem repeat_scan_keeps_previous_state `{C : Collaborators}
    (scan : ScanService) (data : string) (s : State)
    (si : option ScanImageInfo) (prevScanSource : string) (db' : DB)
    (plugins : list (string * option (Plugin LayoutProvider))) :
  parseImageInfo data = (si, None) ->
  HandleCurrentInfo si (db s) = ((prevScanSource, false, None), db') ->
  let r := init scan data s in
  let handled := fst (result (ResultHandling scan data plugins s)) in
  result r
    = ({| scanInfo := si; prevScan := prevScan scan; isNew := false |}, None)
  /\ events r = [EvParse data]
  /\ prevScan handled = prevScan scan
  /\ (prevScan scan = None -> prevScan handled = None)
  /\ (forall info provider server,
        getContent handled info provider server
        = buildMapContent
            (Image info +:+ " vulnerability scan report")
            (GenTicketDescription provider info (prevScan scan)
               (server +:+ (Registry info +:+ "/"
                            +:+ strings.ReplaceAll (Image info) "/" "%2F")))
            (Registry info +:+ "/"
             +:+ strings.ReplaceAll (Image info) "/" "%2F"))
  /\ (forall scan0 data0 s0 source,
        In (EvParse source) (events (init scan0 data0 s0)) ->
        source = data0
        \/ exists si0 db0,
             HandleCurrentInfo si0 (db s0) = ((source, true, None), db0)
             /\ source <> "").
Proof.
  intros Hp Hh r handled.
  assert (Hr : init scan data s
               = (({| scanInfo := si; prevScan := prevScan scan;
                      isNew := false |}, None),
                  {| db := db'; heap := heap s |}, [EvParse data])).
  { unfold init. run_m. rewrite Hp, Hh. reflexivity. }
  subst r handled. split; [rewrite Hr; reflexivity|].
  split; [rewrite Hr; reflexivity|].
  assert (Hscan : prevScan (fst (result (ResultHandling scan data plugins s)))
                  = prevScan scan)
    by (rewrite ResultHandling_scan, Hr; reflexivity).
  split; [exact Hscan|]. split; [intros Hnone; congruence|]. split.
  - intros info provider server. unfold getContent. rewrite Hscan. reflexivity.
  - intros scan0 data0 s0 source Hin.
    destruct (init_parses scan0 data0 s0)
      as [Hev | (si0 & src & db0 & _ & Hh0 & Hne & Hev & _)];
      rewrite Hev in Hin.
    + destruct Hin as [Heq|[]]. left. congruence.
    + destruct Hin as [Heq|[Heq|[]]]; [left; congruence|].
      right. exists si0, db0. inversion Heq; subst. auto.
Qed.

(** A repeat scan for which the store holds a prior payload, handled by a
    fresh service for a subscriber that opted into repeats: the prior
    payload is not parsed, and the content dispatched is rendered without a
    previous scan. *)
Lemma repeat_scan_keeps_previous_state_witness :
  let d := {| Demo.buckets := ∅; Demo.prior := ("b", false, None) |} in
  let s := Demo.stateOf Demo.collaborators d (Demo.settingsOf 0 0 true) in
  let r := ResultHandling (C := Demo.collaborators) newScanService "a"
             [("jira", Some Demo.plugin)] s in
  events (init (C := Demo.collaborators) newScanService "a" s) = [EvParse "a"]
  /\ prevScan (fst (result r)) = None
  /\ sends (events r)
     = [EvSend Demo.plugin
          (Some (<["owners" := "team-a;team-b"]>
                   (<["src" := "a"]>
                      (buildMapContent "a vulnerability scan report"
                         "report: https://aqua.local/registry.local/a"
                         "registry.local/a"))))].
Proof.
  cbv zeta.
  pose proof (repeat_scan_keeps_previous_state (C := Demo.collaborators)
    newScanService "a"
    (Demo.stateOf Demo.collaborators
       {| Demo.buckets := ∅; Demo.prior := ("b", false, None) |}
       (Demo.settingsOf 0 0 true))
    (Some (Demo.infoOf "a")) "b"
    {| Demo.buckets := ∅; Demo.prior := ("b", false, None) |}
    [("jira", Some Demo.plugin)]) as W.
  destruct W as (_ & Hev & _ & Hprev & _).
  - reflexivity.
  - reflexivity.
  - split; [exact Hev|]. split; [apply Hprev; reflexivity | reflexivity].
Defined.

(** C9, as the claim states it, fails: a service that handled a new scan
    keeps the previous scan it parsed then; when it handles a repeat scan
    next, [init] does not reset that state, and the content dispatched to a
    subscriber that opted into repeats is rendered with it. *)
Lemma repeat_scan_counterexample :
  let reused := {| scanInfo := Some (Demo.infoOf "old");
                   prevScan := Some (Demo.infoOf "older");
                   isNew := true |} in
  let s := Demo.stateOf Demo.collaborators (Demo.emptyDb false)
             (Demo.settingsOf 0 0 true) in
  let r := ResultHandling (C := Demo.collaborators) reused "a"
             [("jira", Some Demo.plugin)] s in
  isNew (fst (result r)) = false
  /\ prevScan (fst (result r)) = Some (Demo.infoOf "older")
  /\ sends (events r)
     = [EvSend Demo.plugin
          (Some (<["owners" := "team-a;team-b"]>
                   (<["src" := "a"]>
                      (buildMapContent "a vulnerability scan report"
                         "changes: https://aqua.local/registry.local/a"
                         "registry.local/a"))))].
Proof.
  cbv zeta. split; [|split]; reflexivity.
Qed.

(** ** Degenerate entries of the plugin map *)

(** C10.  A nil plugin in the map is skipped: the state is unchanged and
    nothing happens.  A plugin whose settings lookup returns nil is gated
    with the default settings, and a passing one is served with them and
    with the empty server prefix.  A call whose [init] succeeds with a
    parsed scan returns, whatever entries the map holds. *)
Theorem degenerate_entries `{C : Collaborators}
    (scan : ScanService) (info : ScanImageInfo) (input owners name : string)
    (plg : Plugin LayoutProvider) (s : State) :
  lookupSettings s plg = None ->
  handlePlugin scan info input owners name None s = (tt, s, [])
  /\ handlePlugin scan info input owners name (Some plg) s
     = (if snd (policyGate scan info GetDefaultSettings name input)
        then
          (tt,
           final (aggregateAndSend name plg GetDefaultSettings None
                    (buildContent scan info plg "" input owners) s),
           map EvLog (fst (policyGate scan info GetDefaultSettings name input))
           ++ events (aggregateAndSend name plg GetDefaultSettings None
                        (buildContent scan info plg "" input owners) s))
        else
          (tt, s,
           map EvLog (fst (policyGate scan info GetDefaultSettings name input))))
  /\ (forall scan0 plugins s0 scan' info',
        result (init scan0 input s0) = (scan', None) ->
        scanInfo scan' = Some info' ->
        snd (result (ResultHandling scan0 input plugins s0)) = Returned).
Proof.
  intros Hnil. split; [reflexivity|]. split.
  - destruct (policyGate scan info GetDefaultSettings name input)
      as [logs pass] eqn:Hgate.
    assert (Hcs : currentSettingsOf (lookupSettings s plg)
                  = (None, GetDefaultSettings)) by (rewrite Hnil; reflexivity).
    rewrite (handlePlugin_run _ _ _ _ _ _ _ _ _ _ _ Hcs Hgate).
    rewrite Hnil. reflexivity.
  - intros scan0 plugins s0 scan' info' Hinit Hinfo.
    unfold ResultHandling. cbv [mbind M_bind bind result] in *.
    destruct (init scan0 input s0) as [[[scan1 err] s1] t1].
    cbn [fst snd] in Hinit. inversion Hinit; subst.
    rewrite Hinfo. cbv [logPrint emit ret].
    destruct (rangePlugins scan' info' input (ownersOf info') plugins s1)
      as [[[] s2] t2].
    reflexivity.
Qed.

(** A map with a nil entry and a plugin without settings: the call returns,
    and the plugin without settings is served under the default settings. *)
Lemma degenerate_entries_witness :
  let bare : Plugin unit := {| plgSettings := None; plgLayout := tt |} in
  let s := Demo.stateOf Demo.collaborators (Demo.emptyDb true)
             (Demo.settingsOf 0 0 false) in
  let r := ResultHandling (C := Demo.collaborators) newScanService "a"
             [("absent", None); ("slack", Some bare)] s in
  snd (result r) = Returned
  /\ length (sends (events r)) = 1%nat
  /\ final r = s.
Proof.
  cbv zeta.
  pose proof (degenerate_entries (C := Demo.collaborators)
    (Demo.scanOf "a" true) (Demo.infoOf "a") "a" "team-a;team-b" "slack"
    {| plgSettings := None; plgLayout := tt |}
    (Demo.stateOf Demo.collaborators (Demo.emptyDb true)
       (Demo.settingsOf 0 0 false))) as W.
  destruct W as (_ & _ & Hret).
  - reflexivity.
  - split; [|split].
    + apply (Hret newScanService _ _ (Demo.scanOf "a" true) (Demo.infoOf "a"));
        reflexivity.
    + reflexivity.
    + reflexivity.
Defined.

(** ** The scheduler is started once *)

Section SchedulerStart.
Import SchedulerGuard.

(** An uninterrupted call starts the scheduler when the flag is down, and
    leaves the flag up. *)
Lemma runCall_spec (sh : shared) :
  runCall sh = if flag sh then sh
               else {| flag := true; started := S (started sh) |}.
Proof. destruct sh as [[] n]; reflexivity. Qed.

(** Calls that follow one another start the scheduler at most once. *)
Lemma sequential_calls_start_once (n : nat) :
  (started (Nat.iter n runCall {| flag := false; started := 0 |}) <= 1)%nat
  /\ (flag (Nat.iter n runCall {| flag := false; started := 0 |}) = true ->
      started (Nat.iter n runCall {| flag := false; started := 0 |}) = 1%nat)
  /\ (flag (Nat.iter n runCall {| flag := false; started := 0 |}) = false ->
      started (Nat.iter n runCall {| flag := false; started := 0 |}) = 0%nat).
Proof.
  induction n as [|n (IH1 & IH2 & IH3)].
  - cbn. repeat split; auto; discriminate.
  - rewrite Nat.iter_succ, runCall_spec.
    destruct (flag (Nat.iter n runCall _)) eqn:Hf.
    + rewrite Hf. split; [exact IH1|]. split; [exact IH2 | discriminate].
    + cbn. rewrite IH3 by reflexivity.
      split; [lia|]. split; [reflexivity | discriminate].
Qed.

Lemma pending_insert (ps : list pc) (i : nat) (p q : pc) :
  ps !! i = Some p ->
  (pending (<[i := q]> ps) + (if decide (p = AtGo) then 1 else 0)
   = pending ps + (if decide (q = AtGo) then 1 else 0))%nat.
Proof.
  unfold pending. revert i.
  induction ps as [|a ps IH]; intros i Hi; [discriminate|].
  destruct i as [|i]; cbn in Hi |- *.
  - inversion Hi; subst.
    destruct (decide (q = AtGo)), (decide (p = AtGo)); cbn; lia.
  - specialize (IH i Hi).
    destruct (decide (a = AtGo)); cbn; [f_equal|]; exact IH.
Qed.

(** With an atomic check-and-set, the goroutines started and the calls
    about to start one never add up to more than the flag allows. *)
Lemma stepThreadAtomic_invariant (i : nat) (c : list pc * shared) :
  (started (snd c) + pending (fst c)
   = if flag (snd c) then 1 else 0)%nat ->
  (started (snd (stepThreadAtomic i c))
   + pending (fst (stepThreadAtomic i c))
   = if flag (snd (stepThreadAtomic i c)) then 1 else 0)%nat.
Proof.
  destruct c as [ps [f n]]. unfold stepThreadAtomic. cbn [fst snd].
  destruct (ps !! i) as [p|] eqn:Hi; [|auto].
  intros Hinv.
  destruct p, f; cbn [stepAtomic flag started fst snd] in *;
    match goal with
    | |- context [<[i := ?q]> ps] =>
        pose proof (pending_insert ps i _ q Hi) as Hp
    end;
    repeat case_decide; try congruence; lia.
Qed.

(** With an atomic check-and-set no schedule of any number of calls
    starts the scheduler twice. *)
Lemma atomic_guard_starts_once (schedule : list nat) (calls : nat) :
  (started (snd (runAtomic schedule
                   (replicate calls AtCheck,
                    {| flag := false; started := 0 |}))) <= 1)%nat.
Proof.
  assert (Hrun : forall sch c,
             (started (snd c) + pending (fst c)
              = if flag (snd c) then 1 else 0)%nat ->
             (started (snd (runAtomic sch c)) <= 1)%nat).
  { induction sch as [|i sch IH]; intros c Hinv; cbn [runAtomic].
    - destruct (flag (snd c)); lia.
    - apply IH, stepThreadAtomic_invariant, Hinv. }
  apply Hrun. cbn [fst snd flag started]. unfold pending.
  induction calls as [|k IH]; cbn; [reflexivity | exact IH].
Qed.

End SchedulerStart.

Section GuardInHandling.
Context `{C : Collaborators}.

(** Lines 119-133 inside [ResultHandling] are one uninterrupted call of
    the guard: a goroutine is started exactly when the flag read is down,
    and the plugin's struct has the flag up afterwards. *)
Lemma aggregateAndSend_guard (name : string) (plg : Plugin LayoutProvider)
    (s : State) (p : nat) (cs : Settings) (content0 : Fields) :
  0 < AggregateTimeoutSeconds cs ->
  heap s !! p = Some cs ->
  let r := aggregateAndSend name plg cs (Some p) content0 s in
  let after := SchedulerGuard.runCall
                 {| SchedulerGuard.flag := IsScheduleRun cs;
                    SchedulerGuard.started := 0 |} in
  length (goes (events r)) = SchedulerGuard.started after
  /\ IsScheduleRun <$> (heap (final r) !! p) = Some (SchedulerGuard.flag after).
Proof.
  intros Ht Hp. cbv zeta. rewrite runCall_spec. cbn [SchedulerGuard.flag].
  unfold aggregateAndSend. apply Z.ltb_lt in Ht. rewrite Ht.
  cbv [mbind M_bind bind].
  destruct (0 <? AggregateIssuesNumber cs).
  - destruct (AggregateScans name (Some content0) (AggregateIssuesNumber cs)
                false (db s)) as [[batch err] db'] eqn:Hst.
    rewrite (AggregateScanAndGetQueue_run _ _ _ _ _ _ _ _ Hst).
    destruct (lenMap (Some content0) =? 0)%nat, (IsScheduleRun cs) eqn:Hf,
      batch as [|c q], err as [e|];
      cbn -[buildAggregatedContent lenMap Nat.ltb];
      try destruct (0 <? lenMap (buildAggregatedContent (c :: q)
                                   (plgLayout plg)))%nat;
      cbn; rewrite ?lookup_alter_eq, Hp; cbn; rewrite ?Hf; auto.
  - destruct (AggregateScans name (Some content0) 0 true (db s))
      as [[batch err] db'] eqn:Hst.
    cbn [ret negb].
    rewrite (AggregateScanAndGetQueue_run _ _ _ _ _ _ _ _ Hst).
    destruct (lenMap (Some content0) =? 0)%nat, (IsScheduleRun cs) eqn:Hf,
      batch as [|c q], err as [e|];
      cbn; rewrite ?lookup_alter_eq, Hp; cbn; rewrite ?Hf; auto.
Qed.

End GuardInHandling.

(** C3.  Two concurrent calls for a subscriber whose flag is down: both
    read the flag before either writes it, and the scheduler goroutine is
    started twice.  The guard of lines 119-133 is a read followed by a
    write, not an atomic check-and-set. *)
Theorem scheduler_guard_race :
  let c := SchedulerGuard.run [0; 1; 0; 1; 0; 1]%nat
             ([SchedulerGuard.AtCheck; SchedulerGuard.AtCheck],
              {| SchedulerGuard.flag := false; SchedulerGuard.started := 0 |}) in
  fst c = [SchedulerGuard.Past; SchedulerGuard.Past]
  /\ SchedulerGuard.started (snd c) = 2%nat.
Proof. cbv zeta. split; reflexivity. Qed.

(** ** Scenarios *)

Section Scenarios.
Import Demo.

Let handle (input : string) (s : @State collaborators) :=
  ResultHandling (C := collaborators) newScanService input
                 [("jira", Some plugin)] s.

(** With threshold 3, scans a and b are queued, scan c is dispatched
    together with them, and scan d opens a new window. *)
Example window_of_three :
  let s0 := stateOf collaborators (emptyDb true) (settingsOf 3 0 false) in
  let ra := handle "a" s0 in
  let rb := handle "b" (final ra) in
  let rc := handle "c" (final rb) in
  let rd := handle "d" (final rc) in
  sends (events ra) = []
  /\ sends (events rb) = []
  /\ sends (events rc)
     = [EvSend plugin (merge [Some (contentOf "a"); Some (contentOf "b");
                              Some (contentOf "c")] tt)]
  /\ sends (events rd) = []
  /\ buckets (db (final rd)) !! "jira" = Some [Some (contentOf "d")].
Proof. cbv zeta. repeat split; reflexivity. Qed.

(** With an interval and no threshold, scans are queued and never
    dispatched by the call; one flush dispatches them together, and a flush
    of an empty bucket dispatches nothing.  The scheduler is started by the
    first scan only. *)
Example interval_only :
  let s0 := stateOf collaborators (emptyDb true) (settingsOf 0 60 false) in
  let ra := handle "a" s0 in
  let rb := handle "b" (final ra) in
  let f1 := schedulerFlush (C := collaborators) "jira" plugin (final rb) in
  let f2 := schedulerFlush (C := collaborators) "jira" plugin (final f1) in
  sends (events ra) = [] /\ sends (events rb) = []
  /\ goes (events ra) = [EvGoScheduler "jira" plugin]
  /\ goes (events rb) = []
  /\ sends (events f1)
     = [EvSend plugin (merge [Some (contentOf "a"); Some (contentOf "b")] tt)]
  /\ sends (events f2) = [].
Proof. cbv zeta. repeat split; reflexivity. Qed.

(** A payload that does not parse stops the call before any subscriber is
    looked at. *)
Example parse_failure_aborts :
  let s0 := stateOf collaborators (emptyDb true) (settingsOf 0 0 false) in
  handle "" s0
  = (({| scanInfo := None; prevScan := None; isNew := false |}, Returned),
     s0, [EvParse ""; EvLog LogInitError]).
Proof. reflexivity. Qed.

Example strings_examples :
  strings.lowerASCII "CriTical" = "critical"
  /\ strings.ReplaceAll "library/alpine/3.8" "/" "%2F" = "library%2Falpine%2F3.8"
  /\ strings.ReplaceAll "a--b---c" "--" "+" = "a+b+-c"
  /\ strings.Join ["team-a"; "team-b"; "team-c"] ";" = "team-a;team-b;team-c".
Proof. repeat split; reflexivity. Qed.

End Scenarios.


(** * Further properties of the handling code *)

(** ** The checks of the gate *)

Section GateFacts.
Context `{C : Collaborators}.

Lemma nonEmpty_false {A : Type} (l : list A) : nonEmpty l = false <-> l = [].
Proof. destruct l; cbn; split; congruence. Qed.

Lemma nonEmptyStr_false (x : string) : nonEmptyStr x = false <-> x = "".
Proof.
  unfold nonEmptyStr. destruct (String.eqb_spec x ""); cbn; split; congruence.
Qed.

(** A check of the form "the list is set and the test holds" does not fire
    exactly when the list is empty or the test fails. *)
Lemma guard_off {A : Type} (l : list A) (b : bool) :
  nonEmpty l && b = false <-> l = [] \/ b = false.
Proof. destruct l, b; cbn; split; auto; intros [|]; congruence. Qed.

Lemma guard_off_neg {A : Type} (l : list A) (b : bool) :
  nonEmpty l && negb b = false <-> l = [] \/ b = true.
Proof. destruct l, b; cbn; split; auto; intros [|]; congruence. Qed.

Lemma flag_off_neg' (a b : bool) :
  negb a && negb b = true <-> a = false /\ b = false.
Proof. destruct a, b; cbn; split; auto; intros [? ?]; congruence. Qed.

Lemma flag_off_neg (a b : bool) :
  a && negb b = false <-> a = false \/ b = true.
Proof. destruct a, b; cbn; split; auto; intros [|]; congruence. Qed.

End GateFacts.

(** X1.  A subscriber passes the gate of lines 40-91 exactly when all nine
    checks let it through: the scan is new or repeats are wanted; no minimum
    level is set or a count at that level or above is positive; each ignore
    list is empty or does not match; each allow list is empty or matches; the
    compliance and fix-version switches are off or the scan is disallowed,
    respectively has a fix version; no policy rules are set or the evaluator
    answers true without an error. *)
Theorem policy_gate_passes_iff `{C : Collaborators}
    (scan : ScanService) (info : ScanImageInfo) (cs : Settings)
    (name input : string) :
  snd (policyGate scan info cs name input) = true
  <-> (isNew scan = true \/ PolicyShowAll cs = true)
      /\ (PolicyMinVulnerability cs = ""
          \/ checkVulnerabilitiesLevel info (PolicyMinVulnerability cs) = true)
      /\ (IgnoreRegistry cs = []
          \/ compliesPolicies (IgnoreRegistry cs) (Registry info) = false)
      /\ (IgnoreImageName cs = []
          \/ compliesPolicies (IgnoreImageName cs) (Image info) = false)
      /\ (PolicyImageName cs = []
          \/ compliesPolicies (PolicyImageName cs) (Image info) = true)
      /\ (PolicyRegistry cs = []
          \/ compliesPolicies (PolicyRegistry cs) (Registry info) = true)
      /\ (PolicyNonCompliant cs = false \/ Disallowed info = true)
      /\ (PolicyOnlyFixAvailable cs = false \/ checkFixVersions info = true)
      /\ (PolicyOPA cs = []
          \/ isRegoCorrect (PolicyOPA cs) input = (true, None)).
Proof.
  unfold policyGate.
  destruct (negb (isNew scan) && negb (PolicyShowAll cs)) eqn:H1.
  { split; [discriminate|]. intros (E & _). apply flag_off_neg' in H1.
    destruct H1 as [E1 E2]. destruct E; congruence. }
  assert (P1 : isNew scan = true \/ PolicyShowAll cs = true).
  { destruct (isNew scan), (PolicyShowAll cs); cbn in H1; auto. }
  destruct (nonEmptyStr (PolicyMinVulnerability cs)
            && negb (checkVulnerabilitiesLevel
                       info (PolicyMinVulnerability cs))) eqn:H2.
  { split; [discriminate|]. intros (_ & E & _).
    apply andb_true_iff in H2. destruct H2 as [E1 E2].
    apply negb_true_iff in E2.
    destruct E as [E|E]; [|congruence].
    apply nonEmptyStr_false in E. congruence. }
  assert (P2 : PolicyMinVulnerability cs = ""
               \/ checkVulnerabilitiesLevel
                    info (PolicyMinVulnerability cs) = true).
  { apply flag_off_neg in H2. destruct H2 as [E|E]; [left|right; exact E].
    apply nonEmptyStr_false, E. }
  destruct (nonEmpty (IgnoreRegistry cs)
            && compliesPolicies (IgnoreRegistry cs) (Registry info)) eqn:H3.
  { split; [discriminate|]. intros (_ & _ & E & _).
    apply guard_off in E. congruence. }
  apply guard_off in H3.
  destruct (nonEmpty (IgnoreImageName cs)
            && compliesPolicies (IgnoreImageName cs) (Image info)) eqn:H4.
  { split; [discriminate|]. intros (_ & _ & _ & E & _).
    apply guard_off in E. congruence. }
  apply guard_off in H4.
  destruct (nonEmpty (PolicyImageName cs)
            && negb (compliesPolicies (PolicyImageName cs) (Image info)))
    eqn:H5.
  { split; [discriminate|]. intros (_ & _ & _ & _ & E & _).
    apply guard_off_neg in E. congruence. }
  apply guard_off_neg in H5.
  destruct (nonEmpty (PolicyRegistry cs)
            && negb (compliesPolicies (PolicyRegistry cs) (Registry info)))
    eqn:H6.
  { split; [discriminate|]. intros (_ & _ & _ & _ & _ & E & _).
    apply guard_off_neg in E. congruence. }
  apply guard_off_neg in H6.
  destruct (PolicyNonCompliant cs && negb (Disallowed info)) eqn:H7.
  { split; [discriminate|]. intros (_ & _ & _ & _ & _ & _ & E & _).
    apply flag_off_neg in E. congruence. }
  apply flag_off_neg in H7.
  destruct (PolicyOnlyFixAvailable cs && negb (checkFixVersions info)) eqn:H8.
  { split; [discriminate|]. intros (_ & _ & _ & _ & _ & _ & _ & E & _).
    apply flag_off_neg in E. congruence. }
  apply flag_off_neg in H8.
  destruct (PolicyOPA cs) as [|rule rules] eqn:H9; cbn [nonEmpty].
  { split; [|reflexivity]. intros _. repeat (split; [assumption|]). auto. }
  destruct (isRegoCorrect (rule :: rules) input) as [verdict [e|]] eqn:H10.
  - destruct verdict; cbn; (split; [discriminate|]);
      intros (_ & _ & _ & _ & _ & _ & _ & _ & [E|E]); discriminate.
  - destruct verdict; cbn.
    + split; [|reflexivity]. intros _. repeat (split; [assumption|]). auto.
    + split; [discriminate|].
      intros (_ & _ & _ & _ & _ & _ & _ & _ & [E|E]); discriminate.
Qed.

(** ** What one iteration can do *)

Section IterationFacts.
Context `{C : Collaborators}.

(** Lines 103-138 in every mode: at most one dispatch, at most one call of
    the store, and a scheduler start exactly when time-based aggregation is
    on and the flag read is down; the only write to the heap is that of
    line 132. *)
Lemma aggregateAndSend_effects (name : string) (plg : Plugin LayoutProvider)
    (s : State) (target : option nat) (cs : Settings) (content0 : Fields) :
  let r := aggregateAndSend name plg cs target content0 s in
  let starts := (0 <? AggregateTimeoutSeconds cs) && negb (IsScheduleRun cs) in
  (length (sends (events r)) <= 1)%nat
  /\ (length (storeCalls (events r)) <= 1)%nat
  /\ goes (events r) = (if starts then [EvGoScheduler name plg] else [])
  /\ heap (final r)
     = (if starts
        then match target with
             | Some p => alter (setIsScheduleRun true) p (heap s)
             | None => heap s
             end
        else heap s).
Proof.
  cbv zeta. unfold aggregateAndSend. cbv [mbind M_bind bind].
  destruct (0 <? AggregateIssuesNumber cs).
  - destruct (AggregateScans name (Some content0) (AggregateIssuesNumber cs)
                false (db s)) as [[batch err] db'] eqn:Hst.
    rewrite (AggregateScanAndGetQueue_run _ _ _ _ _ _ _ _ Hst).
    destruct (lenMap (Some content0) =? 0)%nat,
      (0 <? AggregateTimeoutSeconds cs), (IsScheduleRun cs),
      batch as [|c q], err as [e|], target as [p|];
      cbn -[buildAggregatedContent lenMap Nat.ltb];
      try destruct (0 <? lenMap (buildAggregatedContent (c :: q)
                                   (plgLayout plg)))%nat;
      cbn; auto with lia.
  - destruct (0 <? AggregateTimeoutSeconds cs).
    + destruct (AggregateScans name (Some content0) 0 true (db s))
        as [[batch err] db'] eqn:Hst.
      cbn [ret negb].
      rewrite (AggregateScanAndGetQueue_run _ _ _ _ _ _ _ _ Hst).
      destruct (lenMap (Some content0) =? 0)%nat, (IsScheduleRun cs),
        batch as [|c q], err as [e|], target as [p|]; cbn; auto with lia.
    + cbn -[lenMap Nat.ltb].
      destruct (0 <? lenMap (Some content0))%nat; cbn; auto with lia.
Qed.

(** The built content always has the "src" key, so it is never empty. *)
Lemma buildContent_nonempty (scan : ScanService) (info : ScanImageInfo)
    (plg : Plugin LayoutProvider) (server input owners : string) :
  (0 <? lenMap (Some (buildContent scan info plg server input owners)))%nat
  = true.
Proof.
  apply Nat.ltb_lt. cbn [lenMap].
  assert (Hsrc : buildContent scan info plg server input owners !! "src"
                 = Some input)
    by (unfold buildContent; destruct (negb (String.eqb owners ""));
        reflexivity).
  destruct (size (buildContent scan info plg server input owners)) eqn:Hsz;
    [|lia].
  apply map_size_empty_iff in Hsz. rewrite Hsz in Hsrc. discriminate.
Qed.

End IterationFacts.

(** X2.  A subscriber that the gate rejects is left alone: the iteration
    writes the gate's log lines and nothing else; the state is unchanged, the
    store is not called, nothing is dispatched and no scheduler is started. *)
Theorem rejected_subscriber_is_inert `{C : Collaborators}
    (scan : ScanService) (info : ScanImageInfo) (input owners name : string)
    (plg : Plugin LayoutProvider) (s : State) :
  snd (policyGate scan info
         (snd (currentSettingsOf (lookupSettings s plg))) name input) = false ->
  let r := handlePlugin scan info input owners name (Some plg) s in
  final r = s
  /\ events r
     = map EvLog (fst (policyGate scan info
                         (snd (currentSettingsOf (lookupSettings s plg)))
                         name input))
  /\ sends (events r) = [] /\ storeCalls (events r) = []
  /\ goes (events r) = [].
Proof.
  intros Hrej.
  destruct (currentSettingsOf (lookupSettings s plg)) as [target cs] eqn:Hcs.
  cbn [snd] in *.
  destruct (policyGate scan info cs name input) as [logs pass] eqn:Hgate.
  cbn [fst snd] in *. subst pass. cbv zeta.
  rewrite (handlePlugin_run _ _ _ _ _ _ _ _ _ _ _ Hcs Hgate).
  unfold final, events. cbn [fst snd].
  rewrite sends_logs, storeCalls_logs.
  repeat split. clear. induction logs; cbn; auto.
Qed.

(** An image on the subscriber's ignore list: only the log line of that
    check is written. *)
Lemma rejected_subscriber_is_inert_witness :
  let cs := {| PluginName := "jira"; AquaServer := ""; PolicyShowAll := false;
               PolicyMinVulnerability := ""; IgnoreRegistry := [];
               IgnoreImageName := ["alpine:3.8"]; PolicyImageName := [];
               PolicyRegistry := []; PolicyNonCompliant := false;
               PolicyOnlyFixAvailable := false; PolicyOPA := [];
               AggregateIssuesNumber := 2; AggregateTimeoutSeconds := 60;
               IsScheduleRun := false |} in
  let s := Demo.stateOf Demo.collaborators (Demo.emptyDb true) cs in
  let r := handlePlugin (C := Demo.collaborators) (Demo.scanOf "alpine:3.8" true)
             (Demo.infoOf "alpine:3.8") "alpine:3.8" "team-a;team-b" "jira"
             (Some Demo.plugin) s in
  final r = s /\ events r = [EvLog (LogImageIgnored "jira")].
Proof.
  cbv zeta.
  pose proof (rejected_subscriber_is_inert (C := Demo.collaborators)
    (Demo.scanOf "alpine:3.8" true) (Demo.infoOf "alpine:3.8") "alpine:3.8"
    "team-a;team-b" "jira" Demo.plugin
    (Demo.stateOf Demo.collaborators (Demo.emptyDb true)
       {| PluginName := "jira"; AquaServer := ""; PolicyShowAll := false;
          PolicyMinVulnerability := ""; IgnoreRegistry := [];
          IgnoreImageName := ["alpine:3.8"]; PolicyImageName := [];
          PolicyRegistry := []; PolicyNonCompliant := false;
          PolicyOnlyFixAvailable := false; PolicyOPA := [];
          AggregateIssuesNumber := 2; AggregateTimeoutSeconds := 60;
          IsScheduleRun := false |})) as W.
  destruct W as (Hs & Hev & _).
  - reflexivity.
  - split; [exact Hs | exact Hev].
Defined.

(** X3.  With neither aggregation mode on, a passing subscriber is served
    at once: the iteration writes the gate's log lines and dispatches the
    built content exactly once; the store is not called and the state is
    unchanged.  The built content is never empty, because it always carries
    the raw input. *)
Theorem immediate_dispatch `{C : Collaborators}
    (scan : ScanService) (info : ScanImageInfo) (input owners name : string)
    (plg : Plugin LayoutProvider) (s : State) (target : option nat)
    (cs : Settings) (logs : list LogMsg) :
  currentSettingsOf (lookupSettings s plg) = (target, cs) ->
  policyGate scan info cs name input = (logs, true) ->
  AggregateIssuesNumber cs <= 0 ->
  AggregateTimeoutSeconds cs <= 0 ->
  handlePlugin scan info input owners name (Some plg) s
  = (tt, s,
     map EvLog logs
     ++ [EvSend plg
           (Some (buildContent scan info plg (serverOf (lookupSettings s plg))
                               input owners))]).
Proof.
  intros Hcs Hgate Hn Ht.
  rewrite (handlePlugin_run _ _ _ _ _ _ _ _ _ _ _ Hcs Hgate). cbv zeta.
  unfold aggregateAndSend.
  apply Z.ltb_ge in Hn. apply Z.ltb_ge in Ht. rewrite Hn, Ht.
  cbv [mbind M_bind bind ret]. rewrite buildContent_nonempty. reflexivity.
Qed.

(** A subscriber without aggregation opted into repeats receives a repeat
    scan at once. *)
Lemma immediate_dispatch_witness :
  let s := Demo.stateOf Demo.collaborators (Demo.emptyDb false)
             (Demo.settingsOf 0 0 true) in
  handlePlugin (C := Demo.collaborators) (Demo.scanOf "a" false)
    (Demo.infoOf "a") "a" "team-a;team-b" "jira" (Some Demo.plugin) s
  = (tt, s, [EvSend Demo.plugin (Some (Demo.contentOf "a"))]).
Proof.
  cbv zeta.
  refine (immediate_dispatch (C := Demo.collaborators) (Demo.scanOf "a" false)
            (Demo.infoOf "a") "a" "team-a;team-b" "jira" Demo.plugin
            (Demo.stateOf Demo.collaborators (Demo.emptyDb false)
               (Demo.settingsOf 0 0 true))
            (Some 7%nat) (Demo.settingsOf 0 0 true) [] _ _ _ _).
  - reflexivity.
  - reflexivity.
  - vm_compute. discriminate.
  - vm_compute. discriminate.
Defined.

(** ** The settings heap and the scheduler flag over whole calls *)

Section HeapFacts.
Context `{C : Collaborators}.

Lemma final_mk {A : Type} (a : A) (s : State)
    (t : list (Event LayoutProvider)) : final (a, s, t) = s.
Proof. reflexivity. Qed.

Lemma events_mk {A : Type} (a : A) (s : State)
    (t : list (Event LayoutProvider)) : events (a, s, t) = t.
Proof. reflexivity. Qed.

Lemma flagsRaised_refl (h : gmap nat Settings) : flagsRaised h h.
Proof. intros q. left. reflexivity. Qed.

Lemma flagsRaised_trans (h1 h2 h3 : gmap nat Settings) :
  flagsRaised h1 h2 -> flagsRaised h2 h3 -> flagsRaised h1 h3.
Proof.
  intros H12 H23 q. destruct (H12 q) as [E1|E1], (H23 q) as [E2|E2];
    rewrite E2, E1; auto.
  right. destruct (h1 !! q); reflexivity.
Qed.

Lemma flagsRaised_alter (h : gmap nat Settings) (p : nat) :
  flagsRaised h (alter (setIsScheduleRun true) p h).
Proof.
  intros q. destruct (decide (p = q)) as [->|Hne].
  - right. apply lookup_alter_eq.
  - left. apply lookup_alter_ne. exact Hne.
Qed.

Lemma flagsRaised_is_Some (h h' : gmap nat Settings) (p : nat) :
  flagsRaised h h' -> is_Some (h !! p) -> is_Some (h' !! p).
Proof.
  intros Hr [st Hst]. destruct (Hr p) as [E|E]; rewrite E, Hst; cbn; eauto.
Qed.

Lemma goesAt_app (p : nat) (t1 t2 : list (Event LayoutProvider)) :
  goesAt p (t1 ++ t2) = goesAt p t1 ++ goesAt p t2.
Proof. apply List.filter_app. Qed.

Lemma goesAt_goes (p : nat) (t : list (Event LayoutProvider)) :
  goesAt p t = goesAt p (goes t).
Proof.
  unfold goesAt, goes. induction t as [|e t IH]; [reflexivity|].
  destruct e; cbn; try exact IH.
  destruct (bool_decide (plgSettings plg = Some p)); cbn; rewrite IH;
    reflexivity.
Qed.

Lemma goes_logs (ms : list LogMsg) :
  goes (map (@EvLog LayoutProvider) ms) = [].
Proof. induction ms; cbn; auto. Qed.

Lemma startsWithinFlags_refl (h : gmap nat Settings)
    (t : list (Event LayoutProvider)) :
  goes t = [] -> startsWithinFlags h h t.
Proof.
  intros Hg. split; [apply flagsRaised_refl|].
  intros p _. rewrite goesAt_goes, Hg. cbn. lia.
Qed.

Lemma startsWithinFlags_app (h1 h2 h3 : gmap nat Settings)
    (t1 t2 : list (Event LayoutProvider)) :
  startsWithinFlags h1 h2 t1 -> startsWithinFlags h2 h3 t2 ->
  startsWithinFlags h1 h3 (t1 ++ t2).
Proof.
  intros [R1 P1] [R2 P2]. split; [eapply flagsRaised_trans; eauto|].
  intros p Hp. rewrite goesAt_app, length_app.
  specialize (P1 p Hp).
  specialize (P2 p (flagsRaised_is_Some _ _ _ R1 Hp)). lia.
Qed.

(** One iteration keeps within the flags. *)
Lemma handlePlugin_within_flags (scan : ScanService) (info : ScanImageInfo)
    (input owners name : string) (plugin : option (Plugin LayoutProvider))
    (s : State) :
  let r := handlePlugin scan info input owners name plugin s in
  startsWithinFlags (heap s) (heap (final r)) (events r).
Proof.
  cbv zeta. destruct plugin as [plg|];
    [|apply startsWithinFlags_refl; reflexivity].
  destruct (currentSettingsOf (lookupSettings s plg)) as [target cs] eqn:Hcs.
  destruct (policyGate scan info cs name input) as [logs pass] eqn:Hgate.
  rewrite (handlePlugin_run _ _ _ _ _ _ _ _ _ _ _ Hcs Hgate).
  destruct pass; cbv zeta; unfold final, events; cbn [fst snd];
    [|apply startsWithinFlags_refl, goes_logs].
  apply (startsWithinFlags_app _ (heap s));
    [apply startsWithinFlags_refl, goes_logs|].
  destruct (aggregateAndSend_effects name plg s target cs
              (buildContent scan info plg (serverOf (lookupSettings s plg))
                            input owners)) as (_ & _ & Hgo & Hheap).
  unfold final, events in Hgo, Hheap. rewrite Hheap.
  destruct ((0 <? AggregateTimeoutSeconds cs) && negb (IsScheduleRun cs))
    eqn:Hstart; [|apply startsWithinFlags_refl, Hgo].
  apply andb_true_iff in Hstart. destruct Hstart as [_ Hflag].
  apply negb_true_iff in Hflag.
  unfold currentSettingsOf, lookupSettings in Hcs.
  split.
  - destruct target; [apply flagsRaised_alter | apply flagsRaised_refl].
  - intros p Hp. rewrite goesAt_goes, Hgo. cbn.
    destruct (plgSettings plg) as [p'|] eqn:Hplg.
    + destruct (heap s !! p') as [st|] eqn:Hst.
      * inversion Hcs; subst target cs.
        destruct (decide (p' = p)) as [->|Hne].
        -- rewrite bool_decide_eq_true_2 by reflexivity. cbn.
           unfold startsLeft, flagAt. rewrite lookup_alter_eq, Hst. cbn.
           rewrite Hflag. lia.
        -- rewrite bool_decide_eq_false_2 by congruence. cbn.
           unfold startsLeft, flagAt. rewrite lookup_alter_ne by exact Hne.
           lia.
      * inversion Hcs; subst target cs.
        rewrite bool_decide_eq_false_2; [cbn; lia|].
        intros E. inversion E; subst p'. rewrite Hst in Hp.
        destruct Hp; discriminate.
    + inversion Hcs; subst target cs.
      rewrite bool_decide_eq_false_2 by discriminate. cbn. lia.
Qed.

(** One iteration dispatches, calls the store and starts a scheduler at
    most once each, and not at all for a nil plugin. *)
Lemma handlePlugin_at_most_once (scan : ScanService) (info : ScanImageInfo)
    (input owners name : string) (plugin : option (Plugin LayoutProvider))
    (s : State) :
  let r := handlePlugin scan info input owners name plugin s in
  let present := match plugin with Some _ => 1%nat | None => 0%nat end in
  (length (sends (events r)) <= present)%nat
  /\ (length (storeCalls (events r)) <= present)%nat
  /\ (length (goes (events r)) <= present)%nat.
Proof.
  cbv zeta. destruct plugin as [plg|]; [|cbn; lia].
  destruct (currentSettingsOf (lookupSettings s plg)) as [target cs] eqn:Hcs.
  destruct (policyGate scan info cs name input) as [logs pass] eqn:Hgate.
  rewrite (handlePlugin_run _ _ _ _ _ _ _ _ _ _ _ Hcs Hgate).
  destruct pass; cbv zeta; unfold events; cbn [fst snd].
  - rewrite sends_app, storeCalls_app, goes_app, sends_logs, storeCalls_logs,
      goes_logs. cbn [app].
    destruct (aggregateAndSend_effects name plg s target cs
                (buildContent scan info plg (serverOf (lookupSettings s plg))
                              input owners)) as (Hs & Hc & Hgo & _).
    unfold events in Hs, Hc, Hgo. rewrite Hgo.
    repeat split; auto.
    destruct ((0 <? AggregateTimeoutSeconds cs) && negb (IsScheduleRun cs));
      cbn; lia.
  - rewrite sends_logs, storeCalls_logs, goes_logs. cbn. lia.
Qed.

(** The loop over the map, by the same measures. *)
Lemma rangePlugins_effects (scan : ScanService) (info : ScanImageInfo)
    (input owners : string)
    (plugins : list (string * option (Plugin LayoutProvider))) (s : State) :
  let r := rangePlugins scan info input owners plugins s in
  startsWithinFlags (heap s) (heap (final r)) (events r)
  /\ (length (sends (events r)) <= length (presentPlugins plugins))%nat
  /\ (length (storeCalls (events r)) <= length (presentPlugins plugins))%nat
  /\ (length (goes (events r)) <= length (presentPlugins plugins))%nat.
Proof.
  cbv zeta. revert s.
  induction plugins as [|[name plugin] rest IH]; intros s.
  - cbn. split; [apply startsWithinFlags_refl; reflexivity | lia].
  - rewrite rangePlugins_cons, final_mk, !events_mk.
    pose proof (handlePlugin_within_flags scan info input owners name plugin s)
      as Hw.
    pose proof (handlePlugin_at_most_once scan info input owners name plugin s)
      as (Hs & Hc & Hg).
    cbv zeta in Hw, Hs, Hc, Hg.
    destruct (IH (final (handlePlugin scan info input owners name plugin s)))
      as (IHw & IHs & IHc & IHg).
    split; [eapply startsWithinFlags_app; eauto|].
    rewrite sends_app, storeCalls_app, goes_app, !length_app.
    unfold presentPlugins in *. cbn [List.filter snd].
    destruct plugin; cbn [length]; lia.
Qed.

(** [init] leaves the heap alone and does nothing but parse. *)
Lemma init_effects (scan : ScanService) (data : string) (s : State) :
  heap (final (init scan data s)) = heap s
  /\ sends (events (init scan data s)) = []
  /\ storeCalls (events (init scan data s)) = []
  /\ goes (events (init scan data s)) = [].
Proof.
  unfold init. run_m.
  destruct (parseImageInfo data) as [si [e|]]; [cbn; auto|].
  destruct (HandleCurrentInfo si (db s)) as [[[src fresh] [e|]] db'];
    [cbn; auto|].
  destruct fresh; [|cbn; auto]. cbn [negb].
  destruct (nonEmptyStr src); [|cbn; auto].
  destruct (parseImageInfo src) as [ps err]. cbn. auto.
Qed.

(** One call, by the same measures. *)
Lemma ResultHandling_effects (scan : ScanService) (input : string)
    (plugins : list (string * option (Plugin LayoutProvider))) (s : State) :
  let r := ResultHandling scan input plugins s in
  startsWithinFlags (heap s) (heap (final r)) (events r)
  /\ (length (sends (events r)) <= length (presentPlugins plugins))%nat
  /\ (length (storeCalls (events r)) <= length (presentPlugins plugins))%nat
  /\ (length (goes (events r)) <= length (presentPlugins plugins))%nat.
Proof.
  cbv zeta. unfold ResultHandling. cbv [mbind M_bind bind].
  destruct (init_effects scan input s) as (Hh & Hs & Hc & Hg).
  destruct (init scan input s) as [[[scan' err] s1] t1].
  unfold final, events in *. cbn [fst snd] in *.
  destruct err as [e|].
  - cbv [logPrint emit ret]. cbn [fst snd]. rewrite Hh.
    rewrite sends_app, storeCalls_app, goes_app, Hs, Hc, Hg. cbn.
    split; [|lia].
    apply startsWithinFlags_refl. rewrite goes_app, Hg. reflexivity.
  - destruct (scanInfo scan') as [info|].
    + cbv [logPrint emit ret].
      pose proof (rangePlugins_effects scan' info input (ownersOf info)
                    plugins s1) as (Rw & Rs & Rc & Rg).
      cbv zeta in Rw, Rs, Rc, Rg.
      destruct (rangePlugins scan' info input (ownersOf info) plugins s1)
        as [[[] s2] t2].
      unfold final, events in *. cbn [fst snd] in *.
      rewrite !sends_app, !storeCalls_app, !goes_app, Hs, Hc, Hg.
      cbn [app sends storeCalls goes List.filter isSend isStoreCall isGo].
      rewrite !app_nil_r. rewrite <- Hh.
      split; [|auto].
      apply (startsWithinFlags_app _ (heap s1));
        [apply startsWithinFlags_refl, Hg|].
      change (EvLog LogHandling :: t2) with ([EvLog LogHandling] ++ t2).
      apply (startsWithinFlags_app _ (heap s1));
        [apply startsWithinFlags_refl; reflexivity | exact Rw].
    + cbv [ret]. cbn [fst snd]. rewrite Hh, app_nil_r, Hs, Hc, Hg. cbn.
      split; [|lia]. apply startsWithinFlags_refl, Hg.
Qed.

End HeapFacts.

Section SequenceFacts.
Context `{C : Collaborators}.

(** Calls that follow one another keep within the flags. *)
Lemma handleAll_within_flags (calls : list (ScanService * string))
    (plugins : list (string * option (Plugin LayoutProvider))) (s : State) :
  startsWithinFlags (heap s) (heap (final (handleAll calls plugins s)))
                    (events (handleAll calls plugins s)).
Proof.
  revert s. induction calls as [|[scan input] rest IH]; intros s.
  - apply startsWithinFlags_refl. reflexivity.
  - cbn [handleAll]. cbv [mbind M_bind bind].
    pose proof (ResultHandling_effects scan input plugins s) as (Hw & _).
    cbv zeta in Hw.
    destruct (ResultHandling scan input plugins s) as [[r1 s1] t1].
    specialize (IH s1).
    destruct (handleAll rest plugins s1) as [[[] s2] t2].
    rewrite final_mk, events_mk in *.
    eapply startsWithinFlags_app; eauto.
Qed.

End SequenceFacts.

(** X4.  One call dispatches at most once per plugin of the map, calls the
    aggregation store at most once per plugin, and starts at most one
    scheduler goroutine per plugin; nil entries count for nothing. *)
Theorem one_call_bounds `{C : Collaborators}
    (scan : ScanService) (input : string)
    (plugins : list (string * option (Plugin LayoutProvider))) (s : State) :
  let r := ResultHandling scan input plugins s in
  (length (sends (events r)) <= length (presentPlugins plugins))%nat
  /\ (length (storeCalls (events r)) <= length (presentPlugins plugins))%nat
  /\ (length (goes (events r)) <= length (presentPlugins plugins))%nat.
Proof.
  cbv zeta.
  pose proof (ResultHandling_effects scan input plugins s) as (_ & H).
  exact H.
Qed.

(** X5.  The only write a call makes to the settings structs is the raising
    of IsScheduleRun: after the call every struct is where it was, with all
    its other fields as they were, and no flag has been lowered. *)
Theorem only_flags_are_written `{C : Collaborators}
    (scan : ScanService) (input : string)
    (plugins : list (string * option (Plugin LayoutProvider))) (s : State) :
  flagsRaised (heap s) (heap (final (ResultHandling scan input plugins s)))
  /\ forall q st',
       heap (final (ResultHandling scan input plugins s)) !! q = Some st' ->
       exists st,
         heap s !! q = Some st
         /\ setIsScheduleRun true st' = setIsScheduleRun true st
         /\ (IsScheduleRun st = true -> IsScheduleRun st' = true).
Proof.
  pose proof (ResultHandling_effects scan input plugins s) as ([Hr _] & _).
  cbv zeta in Hr. split; [exact Hr|].
  intros q st' Hq. destruct (Hr q) as [E|E]; rewrite Hq in E.
  - exists st'. auto.
  - destruct (heap s !! q) as [st|]; [|discriminate].
    exists st. inversion E. auto.
Qed.

(** X6.  In calls that follow one another, at most one scheduler goroutine
    is started for the plugins that share a settings struct, and none when
    the struct's flag is already up, whatever the scans and the plugin map
    are. *)
Theorem sequential_calls_start_one_scheduler `{C : Collaborators}
    (calls : list (ScanService * string))
    (plugins : list (string * option (Plugin LayoutProvider)))
    (s : State) (p : nat) :
  is_Some (heap s !! p) ->
  (length (goesAt p (events (handleAll calls plugins s)))
   <= startsLeft (heap s) p)%nat
  /\ (length (goesAt p (events (handleAll calls plugins s))) <= 1)%nat.
Proof.
  intros Hp.
  pose proof (handleAll_within_flags calls plugins s) as [_ Hpot].
  specialize (Hpot p Hp).
  split; [lia|]. unfold startsLeft in Hpot at 2.
  destruct (flagAt (heap s) p); lia.
Qed.

(** Three scans in a row for a subscriber that aggregates by time: the
    scheduler is started once. *)
Lemma sequential_calls_start_one_scheduler_witness :
  let s := Demo.stateOf Demo.collaborators (Demo.emptyDb true)
             (Demo.settingsOf 0 60 false) in
  let t := events (handleAll (C := Demo.collaborators)
                     [(newScanService, "a"); (newScanService, "b");
                      (newScanService, "c")]
                     [("jira", Some Demo.plugin)] s) in
  (length (goesAt 7 t) <= 1)%nat
  /\ goesAt 7 t = [EvGoScheduler "jira" Demo.plugin].
Proof.
  cbv zeta. split.
  - apply (sequential_calls_start_one_scheduler (C := Demo.collaborators)).
    eexists. reflexivity.
  - reflexivity.
Defined.

(** ** The scheduler goroutine *)

Section SchedulerFacts.
Context `{C : Collaborators}.

(** A flush leaves the heap alone, calls the store once and dispatches at
    most once. *)
Lemma schedulerFlush_effects (nm : string) (plg : Plugin LayoutProvider)
    (s : State) :
  heap (final (schedulerFlush nm plg s)) = heap s
  /\ length (storeCalls (events (schedulerFlush nm plg s))) = 1%nat
  /\ (length (sends (events (schedulerFlush nm plg s))) <= 1)%nat
  /\ goes (events (schedulerFlush nm plg s)) = [].
Proof.
  destruct (AggregateScans nm None 0 false (db s)) as [[batch err] db']
    eqn:Hst.
  rewrite (schedulerFlush_run _ _ _ _ _ _ Hst), final_mk, events_mk.
  destruct err, batch; cbn; auto.
Qed.

Lemma lookupSettings_heap (s s' : State) (plg : Plugin LayoutProvider) :
  heap s' = heap s -> lookupSettings s' plg = lookupSettings s plg.
Proof. intros H. unfold lookupSettings. rewrite H. reflexivity. Qed.

Lemma schedulerLoop_rounds (rounds : nat) (nm : string)
    (plg : Plugin LayoutProvider) (s : State) :
  is_Some (lookupSettings s plg) ->
  let r := schedulerLoop rounds nm plg s in
  result r = Returned
  /\ heap (final r) = heap s
  /\ length (storeCalls (events r)) = rounds
  /\ (length (sends (events r)) <= rounds)%nat
  /\ goes (events r) = [].
Proof.
  cbv zeta. revert s. induction rounds as [|n IH]; intros s Hset.
  - cbn. auto.
  - cbn [schedulerLoop]. cbv [mbind M_bind bind GetSettings].
    destruct (lookupSettings s plg) as [x|] eqn:Hlk;
      [|destruct Hset; discriminate].
    destruct (schedulerFlush_effects nm plg s) as (Hh & Hc & Hs & Hg).
    destruct (schedulerFlush nm plg s) as [[[] s1] t1].
    rewrite final_mk, events_mk in *.
    assert (Hset1 : is_Some (lookupSettings s1 plg))
      by (rewrite (lookupSettings_heap s s1 plg Hh), Hlk; eauto).
    destruct (IH s1 Hset1) as (IHr & IHh & IHc & IHs & IHg).
    destruct (schedulerLoop n nm plg s1) as [[o s2] t2].
    unfold result, final, events in *. cbn [fst snd app] in *.
    rewrite storeCalls_app, sends_app, goes_app, !length_app, Hg, IHg.
    repeat split; auto; try congruence; lia.
Qed.

End SchedulerFacts.

(** X7.  For a plugin that has settings, [rounds] iterations of the
    scheduler loop make exactly [rounds] drain requests to the store and at
    most [rounds] dispatches; the goroutine starts no further goroutine and
    leaves every settings struct as it is. *)
Theorem scheduler_rounds `{C : Collaborators}
    (rounds : nat) (nm : string) (plg : Plugin LayoutProvider) (s : State) :
  is_Some (lookupSettings s plg) ->
  let r := scheduler rounds nm plg s in
  result r = Returned
  /\ heap (final r) = heap s
  /\ length (storeCalls (events r)) = rounds
  /\ (length (sends (events r)) <= rounds)%nat
  /\ goes (events r) = [].
Proof.
  intros Hset. cbv zeta. unfold scheduler.
  cbv [mbind M_bind bind GetSettings].
  destruct (lookupSettings s plg) as [x|] eqn:Hlk;
    [|destruct Hset; discriminate].
  assert (Hset' : is_Some (lookupSettings s plg)) by (rewrite Hlk; eauto).
  destruct (schedulerLoop_rounds rounds nm plg s Hset')
    as (Hr & Hh & Hc & Hs & Hg).
  cbv [logPrint emit].
  destruct (schedulerLoop rounds nm plg s) as [[o s2] t2].
  unfold result, final, events in *. cbn [fst snd app] in *.
  cbn [storeCalls sends goes List.filter isStoreCall isSend isGo].
  auto.
Qed.

(** Two scans are queued; the first of three rounds drains and dispatches
    them, the other two find the bucket empty. *)
Lemma scheduler_rounds_witness :
  let s := Demo.stateOf Demo.collaborators
             (Demo.queued [Some (Demo.contentOf "a");
                           Some (Demo.contentOf "b")] true)
             (Demo.settingsOf 0 60 true) in
  let r := scheduler (C := Demo.collaborators) 3 "jira" Demo.plugin s in
  length (storeCalls (events r)) = 3%nat
  /\ sends (events r)
     = [EvSend Demo.plugin
          (Demo.merge [Some (Demo.contentOf "a"); Some (Demo.contentOf "b")] tt)].
Proof.
  cbv zeta.
  pose proof (scheduler_rounds (C := Demo.collaborators) 3 "jira" Demo.plugin
    (Demo.stateOf Demo.collaborators
       (Demo.queued [Some (Demo.contentOf "a"); Some (Demo.contentOf "b")] true)
       (Demo.settingsOf 0 60 true))) as W.
  destruct W as (_ & _ & Hc & _).
  - eexists. reflexivity.
  - split; [exact Hc | reflexivity].
Defined.

(** X8.  A plugin whose GetSettings is nil is served under the default
    settings; when those aggregate by time and their flag is down, a passing
    scan starts the scheduler goroutine for that plugin, and the goroutine
    dereferences the nil settings at once: it faults before it logs, calls
    the store or dispatches anything. *)
Theorem scheduler_faults_without_settings `{C : Collaborators}
    (scan : ScanService) (info : ScanImageInfo) (input owners name : string)
    (plg : Plugin LayoutProvider) (s : State) (logs : list LogMsg)
    (rounds : nat) :
  lookupSettings s plg = None ->
  policyGate scan info GetDefaultSettings name input = (logs, true) ->
  0 < AggregateTimeoutSeconds GetDefaultSettings ->
  IsScheduleRun GetDefaultSettings = false ->
  let r := handlePlugin scan info input owners name (Some plg) s in
  goes (events r) = [EvGoScheduler name plg]
  /\ heap (final r) = heap s
  /\ scheduler rounds name plg (final r) = (Panicked, final r, []).
Proof.
  intros Hnil Hgate Ht Hflag. cbv zeta.
  assert (Hcs : currentSettingsOf (lookupSettings s plg)
                = (None, GetDefaultSettings)) by (rewrite Hnil; reflexivity).
  rewrite (handlePlugin_run _ _ _ _ _ _ _ _ _ _ _ Hcs Hgate). cbv zeta.
  destruct (aggregateAndSend_effects name plg s None GetDefaultSettings
              (buildContent scan info plg (serverOf (lookupSettings s plg))
                            input owners)) as (_ & _ & Hgo & Hheap).
  apply Z.ltb_lt in Ht. rewrite Ht, Hflag in Hgo, Hheap. cbn in Hgo, Hheap.
  rewrite final_mk, events_mk, goes_app, goes_logs, Hgo.
  split; [reflexivity|]. split; [exact Hheap|].
  unfold scheduler. cbv [mbind M_bind bind GetSettings].
  rewrite (lookupSettings_heap s _ plg Hheap), Hnil. reflexivity.
Qed.

(** A plugin without settings under defaults that aggregate every sixty
    seconds. *)
Lemma scheduler_faults_without_settings_witness :
  let bare : Plugin unit := {| plgSettings := None; plgLayout := tt |} in
  let s := Demo.stateOf timedDefaults (Demo.emptyDb true)
             (Demo.settingsOf 0 0 false) in
  let r := handlePlugin (C := timedDefaults) (Demo.scanOf "a" true)
             (Demo.infoOf "a") "a" "team-a;team-b" "slack" (Some bare) s in
  goes (events r) = [EvGoScheduler "slack" bare]
  /\ result (scheduler (C := timedDefaults) 5 "slack" bare (final r))
     = Panicked.
Proof.
  cbv zeta.
  pose proof (scheduler_faults_without_settings (C := timedDefaults)
    (Demo.scanOf "a" true) (Demo.infoOf "a") "a" "team-a;team-b" "slack"
    {| plgSettings := None; plgLayout := tt |}
    (Demo.stateOf timedDefaults (Demo.emptyDb true) (Demo.settingsOf 0 0 false))
    [] 5%nat) as W.
  destruct W as (Hgo & _ & Hpanic).
  - reflexivity.
  - reflexivity.
  - reflexivity.
  - reflexivity.
  - split; [exact Hgo | exact (f_equal result Hpanic)].
Defined.

(** ** Calls that stop early *)

Section AbortFacts.
Context `{C : Collaborators}.

(** After a failed [init] the call logs and returns. *)
Lemma ResultHandling_init_error (scan : ScanService) (input : string)
    (plugins : list (string * option (Plugin LayoutProvider))) (s : State)
    (e : Err) :
  snd (result (init scan input s)) = Some e ->
  ResultHandling scan input plugins s
  = ((fst (result (init scan input s)), Returned),
     final (init scan input s),
     events (init scan input s) ++ [EvLog LogInitError]).
Proof.
  intros Herr. unfold ResultHandling. cbv [mbind M_bind bind].
  destruct (init scan input s) as [[[scan' err] s1] t1].
  unfold result, final, events in *. cbn [fst snd] in *. subst err.
  reflexivity.
Qed.

(** A repeat scan is turned away by every subscriber that has not opted
    into repeats. *)
Lemma rangePlugins_repeat (scan : ScanService) (info : ScanImageInfo)
    (input owners : string)
    (plugins : list (string * option (Plugin LayoutProvider))) (s : State) :
  isNew scan = false ->
  (forall name plg, In (name, Some plg) plugins ->
     PolicyShowAll (snd (currentSettingsOf (lookupSettings s plg))) = false) ->
  rangePlugins scan info input owners plugins s
  = (tt, s, map (fun _ => EvLog LogOldScan) (presentPlugins plugins)).
Proof.
  intros Hold. induction plugins as [|[name plugin] rest IH]; intros Hall.
  - reflexivity.
  - rewrite rangePlugins_cons.
    assert (Hone : handlePlugin scan info input owners name plugin s
                   = (tt, s, match plugin with
                             | Some _ => [EvLog LogOldScan]
                             | None => []
                             end)).
    { destruct plugin as [plg|]; [|reflexivity].
      destruct (currentSettingsOf (lookupSettings s plg)) as [target cs]
        eqn:Hcs.
      assert (Hshow : PolicyShowAll cs = false)
        by (specialize (Hall name plg (or_introl eq_refl));
            rewrite Hcs in Hall; exact Hall).
      assert (Hgate : policyGate scan info cs name input
                      = ([LogOldScan], false))
        by (unfold policyGate; rewrite Hold, Hshow; reflexivity).
      rewrite (handlePlugin_run _ _ _ _ _ _ _ _ _ _ _ Hcs Hgate).
      reflexivity. }
    rewrite Hone, final_mk, events_mk.
    rewrite IH by (intros n p Hin; apply (Hall n p); right; exact Hin).
    rewrite final_mk, events_mk. unfold presentPlugins. cbn [List.filter snd].
    destruct plugin; reflexivity.
Qed.

(** Nil entries of the map can be left out. *)
Lemma rangePlugins_present (scan : ScanService) (info : ScanImageInfo)
    (input owners : string)
    (plugins : list (string * option (Plugin LayoutProvider))) (s : State) :
  rangePlugins scan info input owners plugins s
  = rangePlugins scan info input owners (presentPlugins plugins) s.
Proof.
  revert s. induction plugins as [|[name plugin] rest IH]; intros s.
  - reflexivity.
  - unfold presentPlugins. cbn [List.filter snd].
    destruct plugin as [plg|].
    + fold (presentPlugins rest). rewrite !rangePlugins_cons, IH. reflexivity.
    + fold (presentPlugins rest). rewrite rangePlugins_cons.
      change (handlePlugin scan info input owners name None s) with (tt, s, @nil (Event LayoutProvider)).
      rewrite final_mk, events_mk. cbn [app]. rewrite <- IH.
      destruct (rangePlugins scan info input owners rest s) as [[[] s2] t2].
      reflexivity.
Qed.

End AbortFacts.

(** X9.  When [init] fails, because the payload does not parse, the
    prior-scan lookup fails or the prior payload does not parse, the call
    logs the failure and returns: no subscriber is looked at, so nothing is
    dispatched, the aggregation store is not called, no scheduler is started
    and the settings are untouched. *)
Theorem failed_init_aborts `{C : Collaborators}
    (scan : ScanService) (input : string)
    (plugins : list (string * option (Plugin LayoutProvider))) (s : State)
    (e : Err) :
  snd (result (init scan input s)) = Some e ->
  let r := ResultHandling scan input plugins s in
  snd (result r) = Returned
  /\ events r = events (init scan input s) ++ [EvLog LogInitError]
  /\ sends (events r) = [] /\ storeCalls (events r) = []
  /\ goes (events r) = []
  /\ heap (final r) = heap s.
Proof.
  intros Herr. cbv zeta.
  rewrite (ResultHandling_init_error scan input plugins s e Herr).
  destruct (init_effects scan input s) as (Hh & Hs & Hc & Hg).
  rewrite final_mk, events_mk, sends_app, storeCalls_app, goes_app, Hs, Hc, Hg.
  unfold result. cbn [fst snd app sends storeCalls goes List.filter
                      isSend isStoreCall isGo].
  split; [reflexivity|]. split; [reflexivity|]. auto.
Qed.

(** An empty payload reaches a subscriber that would dispatch at once. *)
Lemma failed_init_aborts_witness :
  let s := Demo.stateOf Demo.collaborators (Demo.emptyDb true)
             (Demo.settingsOf 0 0 true) in
  events (ResultHandling (C := Demo.collaborators) newScanService ""
            [("jira", Some Demo.plugin)] s)
  = [EvParse ""; EvLog LogInitError].
Proof.
  cbv zeta.
  pose proof (failed_init_aborts (C := Demo.collaborators) newScanService ""
    [("jira", Some Demo.plugin)]
    (Demo.stateOf Demo.collaborators (Demo.emptyDb true)
       (Demo.settingsOf 0 0 true))
    (MkErr "unexpected end of JSON input")) as W.
  destruct W as (_ & Hev & _).
  - reflexivity.
  - exact Hev.
Defined.

(** X10.  For a scan that is new and has a non-empty prior payload, [init]
    parses the prior payload and stores the result as the previous scan, and
    returns the error of that parse: a prior payload that does not parse
    stops the handling of the new scan, although the new scan itself was
    parsed, and one that parses is what the description renderer is given as
    the previous scan. *)
Theorem prior_payload_is_parsed `{C : Collaborators}
    (scan : ScanService) (data : string) (s : State)
    (si ps : option ScanImageInfo) (prevScanSource : string) (db' : DB)
    (perr : option Err)
    (plugins : list (string * option (Plugin LayoutProvider))) :
  parseImageInfo data = (si, None) ->
  HandleCurrentInfo si (db s) = ((prevScanSource, true, None), db') ->
  prevScanSource <> "" ->
  parseImageInfo prevScanSource = (ps, perr) ->
  init scan data s
  = (({| scanInfo := si; prevScan := ps; isNew := true |}, perr),
     {| db := db'; heap := heap s |},
     [EvParse data; EvParse prevScanSource])
  /\ (perr <> None ->
      events (ResultHandling scan data plugins s)
      = [EvParse data; EvParse prevScanSource; EvLog LogInitError])
  /\ (perr = None ->
      forall info provider server,
        getContent (fst (result (ResultHandling scan data plugins s)))
                   info provider server !! "description"
        = Some (GenTicketDescription provider info ps
                  (server +:+ (Registry info +:+ "/"
                               +:+ strings.ReplaceAll (Image info) "/" "%2F")))).
Proof.
  intros Hp Hh Hne Hpp.
  assert (Hinit : init scan data s
                  = (({| scanInfo := si; prevScan := ps; isNew := true |}, perr),
                     {| db := db'; heap := heap s |},
                     [EvParse data; EvParse prevScanSource])).
  { unfold init. run_m. rewrite Hp, Hh. cbn [negb]. unfold nonEmptyStr.
    destruct (String.eqb_spec prevScanSource ""); [contradiction|].
    cbn [negb]. rewrite Hpp. reflexivity. }
  split; [exact Hinit|]. split.
  - intros Herr. destruct perr as [e|]; [|contradiction].
    rewrite (ResultHandling_init_error scan data plugins s e)
      by (rewrite Hinit; reflexivity).
    rewrite Hinit. reflexivity.
  - intros -> info provider server.
    rewrite ResultHandling_scan, Hinit. reflexivity.
Qed.

(** A new scan whose recorded prior payload is corrupt is not delivered. *)
Lemma prior_payload_is_parsed_witness :
  let d := {| Demo.buckets := ∅; Demo.prior := ("corrupt", true, None) |} in
  let s := Demo.stateOf strictParser d (Demo.settingsOf 0 0 true) in
  events (ResultHandling (C := strictParser) newScanService "a"
            [("jira", Some Demo.plugin)] s)
  = [EvParse "a"; EvParse "corrupt"; EvLog LogInitError].
Proof.
  cbv zeta.
  pose proof (prior_payload_is_parsed (C := strictParser) newScanService "a"
    (Demo.stateOf strictParser
       {| Demo.buckets := ∅; Demo.prior := ("corrupt", true, None) |}
       (Demo.settingsOf 0 0 true))
    (Some (Demo.infoOf "a")) None "corrupt"
    {| Demo.buckets := ∅; Demo.prior := ("corrupt", true, None) |}
    (Some (MkErr "invalid character"))
    [("jira", Some Demo.plugin)]) as W.
  destruct W as (_ & Hev & _).
  - reflexivity.
  - reflexivity.
  - discriminate.
  - reflexivity.
  - apply Hev. discriminate.
Defined.

(** X11.  A scan that is not new, handled for subscribers none of which has
    opted into repeats: the call parses, looks the scan up, and writes one
    "old scan" line per plugin; nothing is dispatched, the store is not
    called, and the settings are untouched. *)
Theorem repeat_scan_reaches_nobody `{C : Collaborators}
    (scan : ScanService) (input : string) (info : ScanImageInfo)
    (prevScanSource : string) (db' : DB)
    (plugins : list (string * option (Plugin LayoutProvider))) (s : State) :
  parseImageInfo input = (Some info, None) ->
  HandleCurrentInfo (Some info) (db s) = ((prevScanSource, false, None), db') ->
  (forall name plg, In (name, Some plg) plugins ->
     PolicyShowAll (snd (currentSettingsOf (lookupSettings s plg))) = false) ->
  ResultHandling scan input plugins s
  = (({| scanInfo := Some info; prevScan := prevScan scan; isNew := false |},
      Returned),
     {| db := db'; heap := heap s |},
     EvParse input :: EvLog LogHandling
     :: map (fun _ => EvLog LogOldScan) (presentPlugins plugins)).
Proof.
  intros Hp Hh Hall.
  assert (Hinit : init scan input s
                  = (({| scanInfo := Some info; prevScan := prevScan scan;
                         isNew := false |}, None),
                     {| db := db'; heap := heap s |}, [EvParse input]))
    by (unfold init; run_m; rewrite Hp, Hh; reflexivity).
  unfold ResultHandling. cbv [mbind M_bind bind]. rewrite Hinit.
  cbn [scanInfo]. cbv [logPrint emit ret].
  rewrite rangePlugins_repeat; [rewrite app_nil_r; reflexivity | reflexivity |].
  intros name plg Hin. exact (Hall name plg Hin).
Qed.

(** Two subscribers and a nil entry, and a scan seen before. *)
Lemma repeat_scan_reaches_nobody_witness :
  let other : Plugin unit := {| plgSettings := None; plgLayout := tt |} in
  let s := Demo.stateOf Demo.collaborators (Demo.emptyDb false)
             (Demo.settingsOf 2 60 false) in
  events (ResultHandling (C := Demo.collaborators) newScanService "a"
            [("jira", Some Demo.plugin); ("gone", None); ("slack", Some other)]
            s)
  = [EvParse "a"; EvLog LogHandling; EvLog LogOldScan; EvLog LogOldScan].
Proof.
  cbv zeta.
  pose proof (repeat_scan_reaches_nobody (C := Demo.collaborators)
    newScanService "a" (Demo.infoOf "a") "" (Demo.emptyDb false)
    [("jira", Some Demo.plugin); ("gone", None);
     ("slack", Some {| plgSettings := None; plgLayout := tt |})]
    (Demo.stateOf Demo.collaborators (Demo.emptyDb false)
       (Demo.settingsOf 2 60 false))) as W.
  rewrite W; [reflexivity | reflexivity | reflexivity |].
  intros name plg [E|[E|[E|[]]]]; inversion E; reflexivity.
Defined.

(** X12.  Nil entries of the plugin map change nothing: a call on a map
    gives the same result, final state and events as the call on the map
    without its nil entries. *)
Theorem nil_entries_change_nothing `{C : Collaborators}
    (scan : ScanService) (input : string)
    (plugins : list (string * option (Plugin LayoutProvider))) (s : State) :
  ResultHandling scan input plugins s
  = ResultHandling scan input (presentPlugins plugins) s.
Proof.
  unfold ResultHandling. cbv [mbind M_bind bind].
  destruct (init scan input s) as [[[scan' [e|]] s1] t1]; [reflexivity|].
  destruct (scanInfo scan') as [info|]; [|reflexivity].
  cbv [logPrint emit ret]. rewrite rangePlugins_present. reflexivity.
Qed.

(** ** The checks on the scan *)

(** X13.  [checkFixVersions] holds exactly when some resource of the scan
    has a vulnerability with a non-empty fix version; a scan without
    resources, or whose vulnerabilities all lack a fix version, fails it. *)
Theorem checkFixVersions_iff (info : ScanImageInfo) :
  checkFixVersions info = true
  <-> exists r v, In r (Resources info) /\ In v (Vulnerabilities r)
                  /\ FixVersion v <> "".
Proof.
  unfold checkFixVersions. rewrite existsb_exists. split.
  - intros (r & Hr & Hv). apply existsb_exists in Hv.
    destruct Hv as (v & Hv & Hfix). exists r, v. repeat split; auto.
    intros E. apply nonEmptyStr_false in E. congruence.
  - intros (r & v & Hr & Hv & Hfix). exists r. split; [exact Hr|].
    apply existsb_exists. exists v. split; [exact Hv|].
    destruct (nonEmptyStr (FixVersion v)) eqn:E; [reflexivity|].
    apply nonEmptyStr_false in E. contradiction.
Qed.

Section LevelFacts.
Context `{C : Collaborators}.

(** The loop of lines 172-176 succeeds exactly when a count from the start
    index upwards is positive. *)
Lemma checkVulnerabilitiesLevel_true (info : ScanImageInfo)
    (minLevel : string) (level : Severity) :
  strings.ToLower minLevel = levelName level ->
  checkVulnerabilitiesLevel info minLevel = true
  <-> exists l, (rank level <= rank l)%nat /\ 0 < countAt info l.
Proof.
  intros Hname.
  pose proof (checkVulnerabilitiesLevel_false info minLevel level Hname) as Hf.
  split.
  - intros Ht.
    destruct (decide (0 < countAt info SevNegligible
                      /\ (rank level <= 0)%nat)) as [[]|N0];
      [exists SevNegligible; auto|].
    destruct (decide (0 < countAt info SevLow
                      /\ (rank level <= 1)%nat)) as [[]|N1];
      [exists SevLow; auto|].
    destruct (decide (0 < countAt info SevMedium
                      /\ (rank level <= 2)%nat)) as [[]|N2];
      [exists SevMedium; auto|].
    destruct (decide (0 < countAt info SevHigh
                      /\ (rank level <= 3)%nat)) as [[]|N3];
      [exists SevHigh; auto|].
    destruct (decide (0 < countAt info SevCritical
                      /\ (rank level <= 4)%nat)) as [[]|N4];
      [exists SevCritical; auto|].
    exfalso. assert (Hfalse : checkVulnerabilitiesLevel info minLevel = false);
      [|congruence].
    apply (proj2 Hf). intros l Hl.
    apply Z.nlt_ge. intros Hpos. destruct l; cbn [rank] in *; tauto.
  - intros (l & Hl & Hpos). apply not_false_iff_true. intros E.
    pose proof (proj1 Hf E l Hl). lia.
Qed.

(** Every spelling of a level name in ASCII letters of either case is
    lower-cased to the level name, whatever else [strings.ToLower] does. *)
Lemma ascii_spelling_lowers (spelling : string) (l : Severity) :
  strings.isASCII spelling = true ->
  strings.lowerASCII spelling = levelName l ->
  strings.ToLower spelling = levelName l.
Proof. intros Hascii Hlow. rewrite strings.ToLower_ascii; assumption. Qed.

(** A level name is its own lower-case form. *)
Lemma ToLower_level_name (l : Severity) :
  strings.ToLower (levelName l) = levelName l.
Proof. destruct l; rewrite strings.ToLower_ascii; reflexivity. Qed.

End LevelFacts.

(** X14.  The minimum-severity check is monotone in the level: a scan that
    satisfies a minimum level satisfies every lower one, so raising a
    subscriber's minimum level can only filter more scans. *)
Theorem lower_minimum_level_passes_more `{C : Collaborators}
    (info : ScanImageInfo) (lowName highName : string) (low high : Severity) :
  strings.ToLower lowName = levelName low ->
  strings.ToLower highName = levelName high ->
  (rank low <= rank high)%nat ->
  checkVulnerabilitiesLevel info highName = true ->
  checkVulnerabilitiesLevel info lowName = true.
Proof.
  intros Hlow Hhigh Hrank Hcheck.
  apply (checkVulnerabilitiesLevel_true info highName high Hhigh) in Hcheck.
  destruct Hcheck as (l & Hl & Hpos).
  apply (checkVulnerabilitiesLevel_true info lowName low Hlow).
  exists l. split; [lia | exact Hpos].
Qed.

(** A scan with one High finding satisfies "High" and so "low". *)
Lemma lower_minimum_level_passes_more_witness :
  checkVulnerabilitiesLevel (C := Demo.collaborators) (Demo.infoOf "a") "low"
  = true.
Proof.
  apply (lower_minimum_level_passes_more (C := Demo.collaborators)
           (Demo.infoOf "a") "low" "High" SevLow SevHigh).
  - reflexivity.
  - reflexivity.
  - cbn. lia.
  - reflexivity.
Defined.

(** X15.  A minimum level whose name is none of the five level names is
    looked up as index 0: the check then holds exactly when the scan has a
    positive count at any level, as for "negligible". *)
Theorem unknown_level_is_rank_zero `{C : Collaborators}
    (info : ScanImageInfo) (minLevel : string) :
  (forall l, strings.ToLower minLevel <> levelName l) ->
  (checkVulnerabilitiesLevel info minLevel = true
   <-> exists l, 0 < countAt info l)
  /\ checkVulnerabilitiesLevel info minLevel
     = checkVulnerabilitiesLevel info "negligible".
Proof.
  intros Hunknown.
  assert (Hidx : SeverityIndexes (strings.ToLower minLevel) = 0).
  { unfold SeverityIndexes.
    pose proof (Hunknown SevNegligible) as H0.
    pose proof (Hunknown SevLow) as H1. pose proof (Hunknown SevMedium) as H2.
    pose proof (Hunknown SevHigh) as H3.
    pose proof (Hunknown SevCritical) as H4. cbn [levelName] in *.
    repeat match goal with
           | |- context [String.eqb ?a ?b] =>
               destruct (String.eqb_spec a b); [contradiction|]
           end.
    reflexivity. }
  assert (Hsame : checkVulnerabilitiesLevel info minLevel
                  = checkVulnerabilitiesLevel info "negligible")
    by (unfold checkVulnerabilitiesLevel;
        rewrite Hidx, (ToLower_level_name SevNegligible); reflexivity).
  split; [|exact Hsame]. rewrite Hsame.
  rewrite (checkVulnerabilitiesLevel_true info "negligible" SevNegligible
             (ToLower_level_name SevNegligible)).
  split; intros (l & H); exists l; [apply H | split; [cbn; lia | exact H]].
Qed.

(** The level "urgent" is not in the table: a scan with findings passes. *)
Lemma unknown_level_is_rank_zero_witness :
  checkVulnerabilitiesLevel (C := Demo.collaborators) (Demo.infoOf "a") "urgent"
  = true.
Proof.
  apply (proj1 (unknown_level_is_rank_zero (C := Demo.collaborators)
                  (Demo.infoOf "a") "urgent"
                  ltac:(intros l; destruct l; discriminate))).
  exists SevHigh. reflexivity.
Defined.

(** ** The content *)

(** X16.  The image part of the URL built at line 181 holds no "/", so the
    only slash after the registry is the separator; an image name is left
    as it is exactly when it holds no "/". *)
Theorem escaped_image_path (image : string) :
  ~ In "/"%char (String.list_ascii_of_string
                   (strings.ReplaceAll image "/" "%2F"))
  /\ (strings.ReplaceAll image "/" "%2F" = image
      <-> ~ In "/"%char (String.list_ascii_of_string image)).
Proof.
  split; [apply ReplaceAll_slash_free|]. split.
  - intros E. rewrite <- E. apply ReplaceAll_slash_free.
  - apply ReplaceAll_no_slash.
Qed.

(** X17.  The content handed on for a passing subscriber has exactly the
    keys title, description, url and src, and owners when the owners string
    is not empty; its description is what the renderer returns for the scan,
    the previous scan of the service, and the server prefix followed by the
    URL. *)
Theorem built_content_keys `{C : Collaborators}
    (scan : ScanService) (info : ScanImageInfo)
    (plg : Plugin LayoutProvider) (server input owners : string) :
  let c := buildContent scan info plg server input owners in
  dom c = (if String.eqb owners ""
           then {[ "title"; "description"; "url"; "src" ]}
           else {[ "title"; "description"; "url"; "src"; "owners" ]}
           : gset string)
  /\ c !! "description"
     = Some (GenTicketDescription (plgLayout plg) info (prevScan scan)
               (server +:+ (Registry info +:+ "/"
                            +:+ strings.ReplaceAll (Image info) "/" "%2F"))).
Proof.
  cbv zeta. unfold buildContent, getContent, buildMapContent.
  destruct (String.eqb owners ""); cbn [negb]; split;
    try reflexivity; rewrite !dom_insert_L, dom_empty_L; set_solver.
Qed.

(** X18.  The gate never turns a subscriber away in silence: whenever it
    rejects, it has written at least one log line, and the last line names
    the check that decided. *)
Theorem rejections_are_logged `{C : Collaborators}
    (scan : ScanService) (info : ScanImageInfo) (cs : Settings)
    (name input : string) :
  snd (policyGate scan info cs name input) = false ->
  exists earlier reason,
    fst (policyGate scan info cs name input) = earlier ++ [reason]
    /\ In reason [LogOldScan; LogLowLevel name; LogRegistryIgnored name;
                  LogImageIgnored name; LogImageMissed name;
                  LogRegistryMissed name; LogNotDisallowed name;
                  LogNoFixVersion name; LogRegoError (PluginName cs);
                  LogRegoMismatch (PluginName cs)].
Proof.
  unfold policyGate.
  repeat match goal with
         | |- context [if ?b then _ else _] => destruct b
         end;
    try (intros _; exists []; eexists; split; [reflexivity|]; cbn; tauto).
  - destruct (isRegoCorrect (PolicyOPA cs) input) as [[] [e|]]; cbn;
      try discriminate;
      intros _; eexists [_]; eexists; (split; [reflexivity|]); cbn; tauto.
  - discriminate.
Qed.

(** A registry on the ignore list: the log names that check. *)
Lemma rejections_are_logged_witness :
  let cs := {| PluginName := "jira"; AquaServer := ""; PolicyShowAll := true;
               PolicyMinVulnerability := "";
               IgnoreRegistry := ["registry.local"];
               IgnoreImageName := []; PolicyImageName := [];
               PolicyRegistry := []; PolicyNonCompliant := false;
               PolicyOnlyFixAvailable := false; PolicyOPA := [];
               AggregateIssuesNumber := 0; AggregateTimeoutSeconds := 0;
               IsScheduleRun := false |} in
  exists earlier reason,
    fst (policyGate (C := Demo.collaborators) (Demo.scanOf "a" true)
           (Demo.infoOf "a") cs "jira" "a") = earlier ++ [reason]
    /\ In reason [LogOldScan; LogLowLevel "jira"; LogRegistryIgnored "jira";
                  LogImageIgnored "jira"; LogImageMissed "jira";
                  LogRegistryMissed "jira"; LogNotDisallowed "jira";
                  LogNoFixVersion "jira"; LogRegoError "jira";
                  LogRegoMismatch "jira"].
Proof.
  cbv zeta.
  exact (rejections_are_logged (C := Demo.collaborators) (Demo.scanOf "a" true)
           (Demo.infoOf "a")
           {| PluginName := "jira"; AquaServer := ""; PolicyShowAll := true;
              PolicyMinVulnerability := "";
              IgnoreRegistry := ["registry.local"];
              IgnoreImageName := []; PolicyImageName := [];
              PolicyRegistry := []; PolicyNonCompliant := false;
              PolicyOnlyFixAvailable := false; PolicyOPA := [];
              AggregateIssuesNumber := 0; AggregateTimeoutSeconds := 0;
              IsScheduleRun := false |}
           "jira" "a" eq_refl).
Defined.

(** ** Isolation of subscribers and remaining edges *)

(** X19.  An iteration stays with its own subscriber: every call of the
    store it makes uses the subscriber's map key as the bucket and carries
    the content built for this scan, every dispatch goes to the subscriber's
    own plugin, and a scheduler it starts is started for that key and that
    plugin. *)
Theorem iteration_stays_with_its_subscriber `{C : Collaborators}
    (scan : ScanService) (info : ScanImageInfo) (input owners name : string)
    (plg : Plugin LayoutProvider) (s : State) :
  Forall (fun e =>
            match e with
            | EvLog _ => True
            | EvParse _ => False
            | EvAggregateScans n c _ _ =>
                n = name
                /\ c = Some (buildContent scan info plg
                               (serverOf (lookupSettings s plg)) input owners)
            | EvSend p _ => p = plg
            | EvGoScheduler n p => n = name /\ p = plg
            end)
         (events (handlePlugin scan info input owners name (Some plg) s)).
Proof.
  destruct (currentSettingsOf (lookupSettings s plg)) as [target cs] eqn:Hcs.
  destruct (policyGate scan info cs name input) as [logs pass] eqn:Hgate.
  rewrite (handlePlugin_run _ _ _ _ _ _ _ _ _ _ _ Hcs Hgate).
  assert (Hlogs : forall ms : list LogMsg,
             Forall (fun e : Event LayoutProvider =>
                       match e with
                       | EvLog _ => True
                       | EvParse _ => False
                       | EvAggregateScans n c _ _ =>
                           n = name
                           /\ c = Some (buildContent scan info plg
                                          (serverOf (lookupSettings s plg))
                                          input owners)
                       | EvSend p _ => p = plg
                       | EvGoScheduler n p => n = name /\ p = plg
                       end) (map EvLog ms))
    by (induction ms; constructor; auto).
  destruct pass; cbv zeta; rewrite events_mk; [|apply Hlogs].
  apply Forall_app. split; [apply Hlogs|]. clear Hlogs Hgate Hcs.
  set (content0 := buildContent scan info plg (serverOf (lookupSettings s plg))
                                input owners).
  unfold aggregateAndSend. cbv [mbind M_bind bind].
  destruct (0 <? AggregateIssuesNumber cs).
  - destruct (AggregateScans name (Some content0) (AggregateIssuesNumber cs)
                false (db s)) as [[batch err] db'] eqn:Hst.
    rewrite (AggregateScanAndGetQueue_run _ _ _ _ _ _ _ _ Hst).
    destruct (lenMap (Some content0) =? 0)%nat,
      (0 <? AggregateTimeoutSeconds cs), (IsScheduleRun cs),
      batch as [|c q], err as [e|], target as [p|];
      cbn -[buildAggregatedContent lenMap Nat.ltb];
      try destruct (0 <? lenMap (buildAggregatedContent (c :: q)
                                   (plgLayout plg)))%nat;
      cbn; repeat constructor.
  - destruct (0 <? AggregateTimeoutSeconds cs).
    + destruct (AggregateScans name (Some content0) 0 true (db s))
        as [[batch err] db'] eqn:Hst.
      cbn [ret negb].
      rewrite (AggregateScanAndGetQueue_run _ _ _ _ _ _ _ _ Hst).
      destruct (lenMap (Some content0) =? 0)%nat, (IsScheduleRun cs),
        batch as [|c q], err as [e|], target as [p|]; cbn;
        repeat constructor.
    + cbn -[lenMap Nat.ltb].
      destruct (0 <? lenMap (Some content0))%nat; cbn; repeat constructor.
Qed.
